(** * SWOT analyzer service: a shallow embedding of [main.py]

    The service has three HTTP endpoints over one table, [competitors], and
    one external collaborator, a chat-completion model.  The embedding keeps
    the shape of the Python code:

    - JSON values and rows handed around as Python [dict]s are finite maps
      from column names to [pyval];
    - the table is a list of typed rows (the order is the order in which the
      store returns them);
    - the handlers run in a small state-and-exception monad over a [world]
      that holds the table, the log, and the trace of the requests the code
      sent to the model and of the update statements it sent to the store;
    - the model is an oracle: the answer to the n-th request is a parsed
      [SWOTAnalysis] or a failure. *)

From Stdlib Require Import ZArith List Lia.
From stdpp Require Import base strings gmap list pretty.

Open Scope Z_scope.

(** ** Python values and strings *)

Inductive pyval :=
| PyNone
| PyStr (s : string)
| PyInt (n : Z).

#[global] Instance pyval_eq_dec : EqDecision pyval.
Proof. solve_decision. Defined.

(** What an f-string replacement field [{v}] prints. *)
Definition py_format (v : pyval) : string :=
  match v with
  | PyNone => "None"
  | PyStr s => s
  | PyInt n => pretty n
  end.

(** [d.get(key, fallback)]: the fallback is used only when the key is not in
    the dict; a key bound to [None] yields [None]. *)
Definition dict_get (d : gmap string pyval) (key : string) (fallback : pyval) : pyval :=
  match d !! key with
  | Some v => v
  | None => fallback
  end.

Definition nl : string := String (Ascii.ascii_of_nat 10) EmptyString.

(** [sub in s] as a proposition. *)
Definition contains (s sub : string) : Prop :=
  ∃ pre post : string, s = pre +:+ sub +:+ post.

(** [sub in s], computed: [sub] starts [s] or occurs further in. *)
Fixpoint py_in (sub s : string) : bool :=
  String.prefix sub s
  || match s with
     | EmptyString => false
     | String _ s' => py_in sub s'
     end.

(** [s.count(sub)]: the number of occurrences of [sub] in [s] that do not
    overlap, scanning from the left.  [skip] is the number of characters
    still covered by the last occurrence found. *)
Fixpoint count_from (sub s : string) (skip : nat) : nat :=
  match s with
  | EmptyString => 0%nat
  | String _ s' =>
      match skip with
      | S k => count_from sub s' k
      | O =>
          if String.prefix sub s
          then S (count_from sub s' (String.length sub - 1))
          else count_from sub s' 0
      end
  end.

Definition str_count (s sub : string) : nat :=
  match sub with
  | EmptyString => S (String.length s)
  | _ => count_from sub s 0
  end.

(** ** The data model *)

(** The parsed answer of the model, class [SWOTAnalysis]. *)
Record SWOTAnalysis := {
  strengths : string;
  weaknesses : string;
  opportunities : string;
  threats : string
}.

(** The response model, class [CompetitorResponse]. *)
Module CompetitorResponse.
Record t := make {
  id : Z;
  competitor_name : string;
  competitor_strength : option string;
  competitor_weakness : option string;
  competitor_opportunity : option string;
  competitor_threats : option string
}.
End CompetitorResponse.

(** Modelled from the spec: the schema of the [competitors] table, which the
    source only names through its column lists.  [id] is the integer primary
    key, [competitor_name] is a required text, the other eight columns are
    nullable texts. *)
Module Row.
Record t := make {
  id : Z;
  competitor_name : string;
  program_summary : option string;
  competitor_positioning : option string;
  competitor_rewards_benefits : option string;
  competitor_user_feedback : option string;
  competitor_strength : option string;
  competitor_weakness : option string;
  competitor_opportunity : option string;
  competitor_threats : option string
}.

Definition nullable (o : option string) : pyval :=
  match o with
  | Some s => PyStr s
  | None => PyNone
  end.

(** The row as the client library hands it to Python: a dict with one key
    per column, SQL NULL as [None]. *)
Definition to_dict (r : t) : gmap string pyval :=
  list_to_map [
    ("id", PyInt (id r));
    ("competitor_name", PyStr (competitor_name r));
    ("program_summary", nullable (program_summary r));
    ("competitor_positioning", nullable (competitor_positioning r));
    ("competitor_rewards_benefits", nullable (competitor_rewards_benefits r));
    ("competitor_user_feedback", nullable (competitor_user_feedback r));
    ("competitor_strength", nullable (competitor_strength r));
    ("competitor_weakness", nullable (competitor_weakness r));
    ("competitor_opportunity", nullable (competitor_opportunity r));
    ("competitor_threats", nullable (competitor_threats r))
  ].

(** A value written to a nullable text column. *)
Definition text (v : pyval) : option (option string) :=
  match v with
  | PyNone => Some None
  | PyStr s => Some (Some s)
  | PyInt _ => None
  end.

(** [SET column = value] on one row; [None] when the column does not exist
    or the value does not have the column's type. *)
Definition set_column (r : t) (column : string) (v : pyval) : option t :=
  if decide (column = "id") then
    match v with
    | PyInt n =>
        Some (make n (competitor_name r) (program_summary r) (competitor_positioning r)
                (competitor_rewards_benefits r) (competitor_user_feedback r)
                (competitor_strength r) (competitor_weakness r)
                (competitor_opportunity r) (competitor_threats r))
    | _ => None
    end
  else if decide (column = "competitor_name") then
    match v with
    | PyStr s =>
        Some (make (id r) s (program_summary r) (competitor_positioning r)
                (competitor_rewards_benefits r) (competitor_user_feedback r)
                (competitor_strength r) (competitor_weakness r)
                (competitor_opportunity r) (competitor_threats r))
    | _ => None
    end
  else if decide (column = "program_summary") then
    x ← text v;
    Some (make (id r) (competitor_name r) x (competitor_positioning r)
            (competitor_rewards_benefits r) (competitor_user_feedback r)
            (competitor_strength r) (competitor_weakness r)
            (competitor_opportunity r) (competitor_threats r))
  else if decide (column = "competitor_positioning") then
    x ← text v;
    Some (make (id r) (competitor_name r) (program_summary r) x
            (competitor_rewards_benefits r) (competitor_user_feedback r)
            (competitor_strength r) (competitor_weakness r)
            (competitor_opportunity r) (competitor_threats r))
  else if decide (column = "competitor_rewards_benefits") then
    x ← text v;
    Some (make (id r) (competitor_name r) (program_summary r) (competitor_positioning r)
            x (competitor_user_feedback r)
            (competitor_strength r) (competitor_weakness r)
            (competitor_opportunity r) (competitor_threats r))
  else if decide (column = "competitor_user_feedback") then
    x ← text v;
    Some (make (id r) (competitor_name r) (program_summary r) (competitor_positioning r)
            (competitor_rewards_benefits r) x
            (competitor_strength r) (competitor_weakness r)
            (competitor_opportunity r) (competitor_threats r))
  else if decide (column = "competitor_strength") then
    x ← text v;
    Some (make (id r) (competitor_name r) (program_summary r) (competitor_positioning r)
            (competitor_rewards_benefits r) (competitor_user_feedback r)
            x (competitor_weakness r)
            (competitor_opportunity r) (competitor_threats r))
  else if decide (column = "competitor_weakness") then
    x ← text v;
    Some (make (id r) (competitor_name r) (program_summary r) (competitor_positioning r)
            (competitor_rewards_benefits r) (competitor_user_feedback r)
            (competitor_strength r) x
            (competitor_opportunity r) (competitor_threats r))
  else if decide (column = "competitor_opportunity") then
    x ← text v;
    Some (make (id r) (competitor_name r) (program_summary r) (competitor_positioning r)
            (competitor_rewards_benefits r) (competitor_user_feedback r)
            (competitor_strength r) (competitor_weakness r)
            x (competitor_threats r))
  else if decide (column = "competitor_threats") then
    x ← text v;
    Some (make (id r) (competitor_name r) (program_summary r) (competitor_positioning r)
            (competitor_rewards_benefits r) (competitor_user_feedback r)
            (competitor_strength r) (competitor_weakness r)
            (competitor_opportunity r) x)
  else None.

(** [SET] for a whole payload, a Python dict literal read as the list of
    its items in order. *)
Fixpoint update (payload : list (string * pyval)) (r : t) : option t :=
  match payload with
  | [] => Some r
  | (column, v) :: rest => r' ← set_column r column v; update rest r'
  end.
End Row.

(** The prompt of [get_swot_analysis], the f-string of lines 62 to 69. *)
Definition swot_prompt (competitor_name : string) (existing_data : gmap string pyval) : string :=
  "Perform a detailed SWOT analysis of " +:+ competitor_name
    +:+ "'s loyalty program based on this existing data:" +:+ nl
    +:+ nl
    +:+ "   Program Summary: "
    +:+ py_format (dict_get existing_data "program_summary" (PyStr "N/A")) +:+ nl
    +:+ "   Market Positioning: "
    +:+ py_format (dict_get existing_data "competitor_positioning" (PyStr "N/A")) +:+ nl
    +:+ "   Rewards and Benefits: "
    +:+ py_format (dict_get existing_data "competitor_rewards_benefits" (PyStr "N/A")) +:+ nl
    +:+ "   User Feedback: "
    +:+ py_format (dict_get existing_data "competitor_user_feedback" (PyStr "N/A")) +:+ nl
    +:+ nl
    +:+ "   Provide a comprehensive SWOT analysis with each component in 3 bullet points.".

(** ** Exceptions, the world and the monad of the handlers *)

Inductive exn :=
| HTTPException (status_code : Z) (detail : string)
| IndexError
| KeyError (key : string)
| TypeError (what : string)
| ValidationError (field : string)
| APIError (message : string)
| OpenAIError (message : string).

(** [str(e)].  For [HTTPException] this is the [__str__] of the framework,
    the status code and the detail. *)
Definition str (e : exn) : string :=
  match e with
  | HTTPException status_code detail => pretty status_code +:+ ": " +:+ detail
  | IndexError => "list index out of range"
  | KeyError key => "'" +:+ key +:+ "'"
  | TypeError what => what
  | ValidationError field => "1 validation error for CompetitorResponse: " +:+ field
  | APIError message => message
  | OpenAIError message => message
  end.

Inductive level := INFO | ERROR.

(** One request of [client.beta.chat.completions.parse]; the response format
    is always [SWOTAnalysis]. *)
Record completion_request := {
  model : string;
  messages : list (string * string)
}.

(** The filters the code puts on a query: [.eq(column, value)] and
    [.is_(column, 'null')]. *)
Inductive query_filter :=
| Eq (column : string) (value : pyval)
| IsNull (column : string).

(** An update statement as the code sends it: the payload dict and the
    filter. *)
Definition update_statement : Type := list (string * pyval) * query_filter.

Record world := {
  db : list Row.t;
  logged : list (level * string);
  llm_calls : list completion_request;
  db_writes : list update_statement
}.

Definition M (A : Type) : Type := world → (exn + A) * world.

Definition ret {A} (a : A) : M A := λ w, (inr a, w).
Definition raise {A} (e : exn) : M A := λ w, (inl e, w).
Definition bind {A B} (m : M A) (k : A → M B) : M B :=
  λ w, match m w with
       | (inr a, w') => k a w'
       | (inl e, w') => (inl e, w')
       end.

(** [try: body except Exception as e: handler e]; what [body] did to the
    world before it raised stays done. *)
Definition try_except {A} (body : M A) (handler : exn → M A) : M A :=
  λ w, match body w with
       | (inl e, w') => handler e w'
       | r => r
       end.

Declare Scope py_scope.
Delimit Scope py_scope with py.
Notation "x <- m ;; k" := (bind m (λ x, k))
  (at level 100, m at next level, right associativity) : py_scope.
Notation "m ;; k" := (bind m (λ _, k))
  (at level 100, right associativity) : py_scope.
Open Scope py_scope.

Definition logger_info (msg : string) : M unit :=
  λ w, (inr tt, {| db := db w; logged := logged w ++ [(INFO, msg)];
                   llm_calls := llm_calls w; db_writes := db_writes w |}).

Definition logger_error (msg : string) : M unit :=
  λ w, (inr tt, {| db := db w; logged := logged w ++ [(ERROR, msg)];
                   llm_calls := llm_calls w; db_writes := db_writes w |}).

(** ** The record store client *)

Definition matches (f : query_filter) (r : Row.t) : bool :=
  match f with
  | Eq column value => bool_decide (Row.to_dict r !! column = Some value)
  | IsNull column => bool_decide (Row.to_dict r !! column = Some PyNone)
  end.

(** The dict of one selected row: the listed columns only. *)
Definition select_columns (columns : list string) (r : Row.t) : gmap string pyval :=
  filter (λ kv, kv.1 ∈ columns) (Row.to_dict r).

(** [supabase.table('competitors').select(columns).<filter>.execute().data] *)
Definition table_select (columns : list string) (f : query_filter) : M (list (gmap string pyval)) :=
  λ w, (inr (map (select_columns columns) (List.filter (matches f) (db w))), w).

(** The table after an update statement: the matching rows get the payload,
    the others stay; [None] when the store rejects the payload. *)
Definition updated_table (payload : list (string * pyval)) (f : query_filter)
    (rows : list Row.t) : option (list Row.t) :=
  mapM (λ r, if matches f r then Row.update payload r else Some r) rows.

(** [supabase.table('competitors').update(payload).<filter>.execute().data]:
    the rows that matched, as they are after the update. *)
Definition table_update (payload : list (string * pyval)) (f : query_filter) : M (list (gmap string pyval)) :=
  λ w,
    let w' := {| db := db w; logged := logged w; llm_calls := llm_calls w;
                 db_writes := db_writes w ++ [(payload, f)] |} in
    match updated_table payload f (db w), mapM (Row.update payload) (List.filter (matches f) (db w)) with
    | Some rows', Some data =>
        (inr (map Row.to_dict data),
         {| db := rows'; logged := logged w; llm_calls := llm_calls w;
            db_writes := db_writes w ++ [(payload, f)] |})
    | _, _ => (inl (APIError "invalid input for column"), w')
    end.

(** ** Python subscripts and the response model *)

(** [data[0]] *)
Definition first {A} (data : list A) : M A :=
  match data with
  | x :: _ => ret x
  | [] => raise IndexError
  end.

(** [d[key]] where the caller uses the value as an [int]: [KeyError] when
    the key is missing.  A value of another type is reported as [TypeError];
    no dict selected from the typed table holds one. *)
Definition subscript_int (d : gmap string pyval) (key : string) : M Z :=
  match d !! key with
  | Some (PyInt n) => ret n
  | Some _ => raise (TypeError key)
  | None => raise (KeyError key)
  end.

(** [d[key]] where the caller uses the value as a [str], likewise. *)
Definition subscript_str (d : gmap string pyval) (key : string) : M string :=
  match d !! key with
  | Some (PyStr s) => ret s
  | Some _ => raise (TypeError key)
  | None => raise (KeyError key)
  end.

(** An [Optional[str]] field of a pydantic model. *)
Definition optional_str (kwargs : gmap string pyval) (field : string) : M (option string) :=
  match kwargs !! field with
  | Some PyNone => ret None
  | Some (PyStr s) => ret (Some s)
  | _ => raise (ValidationError field)
  end.

(** The constructor of [CompetitorResponse] applied to a dict unpacked as
    keyword arguments: the six declared fields are read and validated, other
    keys are ignored. *)
Definition CompetitorResponse_init (kwargs : gmap string pyval) : M CompetitorResponse.t :=
  match kwargs !! "id", kwargs !! "competitor_name" with
  | Some (PyInt i), Some (PyStr n) =>
      s <- optional_str kwargs "competitor_strength" ;;
      w <- optional_str kwargs "competitor_weakness" ;;
      o <- optional_str kwargs "competitor_opportunity" ;;
      t <- optional_str kwargs "competitor_threats" ;;
      ret (CompetitorResponse.make i n s w o t)
  | Some (PyInt _), _ => raise (ValidationError "competitor_name")
  | _, _ => raise (ValidationError "id")
  end.

(** ** The responses of the HTTP surface *)

Inductive body :=
| Status (status : string)
| Competitor (c : CompetitorResponse.t)
| Batch (status : string) (total_processed : nat) (updated_competitors : list CompetitorResponse.t)
| Detail (detail : string).

Record http_response := {
  status_code : Z;
  content : body
}.

Definition selected_columns : list string :=
  ["id"; "competitor_name"; "program_summary"; "competitor_positioning";
   "competitor_rewards_benefits"; "competitor_user_feedback"].

(** ** Specification functions

    Closed forms used to state what the handlers do: the effect of the
    update statement of the updater on one row and on the table, and the
    rows, statements and records of a batch. *)

(** The row after the four output columns are overwritten. *)
Definition with_swot (swot : SWOTAnalysis) (r : Row.t) : Row.t :=
  Row.make (Row.id r) (Row.competitor_name r) (Row.program_summary r)
    (Row.competitor_positioning r) (Row.competitor_rewards_benefits r)
    (Row.competitor_user_feedback r)
    (Some (strengths swot)) (Some (weaknesses swot))
    (Some (opportunities swot)) (Some (threats swot)).

(** The response built from a row of the table. *)
Definition response_of_row (r : Row.t) : CompetitorResponse.t :=
  CompetitorResponse.make (Row.id r) (Row.competitor_name r)
    (Row.competitor_strength r) (Row.competitor_weakness r)
    (Row.competitor_opportunity r) (Row.competitor_threats r).

Definition has_id (competitor_id : Z) (r : Row.t) : bool :=
  bool_decide (Row.id r = competitor_id).

Definition needs_update (r : Row.t) : bool :=
  bool_decide (Row.competitor_strength r = None).

(** The table after the update statement of the updater. *)
Definition write_swot (competitor_id : Z) (swot : SWOTAnalysis) (rows : list Row.t) : list Row.t :=
  map (λ r, if has_id competitor_id r then with_swot swot r else r) rows.

(** The lines a run of the updater logs: two when it starts, one when it
    ends. *)
Definition updater_log (competitor_id : Z) (competitor_name : string)
    (last : level * string) : list (level * string) :=
  [(INFO, "Updating SWOT analysis for competitor ID " +:+ pretty competitor_id
            +:+ ": " +:+ competitor_name);
   (INFO, "Performing SWOT analysis for " +:+ competitor_name);
   last].

(** The columns this service reads and never writes. *)
Definition same_inputs (r r' : Row.t) : Prop :=
  Row.id r' = Row.id r
  ∧ Row.competitor_name r' = Row.competitor_name r
  ∧ Row.program_summary r' = Row.program_summary r
  ∧ Row.competitor_positioning r' = Row.competitor_positioning r
  ∧ Row.competitor_rewards_benefits r' = Row.competitor_rewards_benefits r
  ∧ Row.competitor_user_feedback r' = Row.competitor_user_feedback r.

Definition output_columns : list string :=
  ["competitor_strength"; "competitor_weakness"; "competitor_opportunity";
   "competitor_threats"].

(** An update statement that sets exactly the four output columns of the
    rows with one id. *)
Definition swot_statement (st : update_statement) : Prop :=
  map fst st.1 = output_columns ∧ ∃ competitor_id, st.2 = Eq "id" (PyInt competitor_id).

(** The statement the updater sends for a row and an answer of the model. *)
Definition statement_of (a : Row.t * SWOTAnalysis) : update_statement :=
  ([("competitor_strength", PyStr (strengths a.2));
    ("competitor_weakness", PyStr (weaknesses a.2));
    ("competitor_opportunity", PyStr (opportunities a.2));
    ("competitor_threats", PyStr (threats a.2))],
   Eq "id" (PyInt (Row.id a.1))).

(** One row after the statements of a list of answers, in order. *)
Fixpoint patch (answers : list (Row.t * SWOTAnalysis)) (r : Row.t) : Row.t :=
  match answers with
  | [] => r
  | a :: rest => patch rest (if has_id (Row.id a.1) r then with_swot a.2 r else r)
  end.

(** The table after the statements of a list of answers. *)
Fixpoint write_all (answers : list (Row.t * SWOTAnalysis)) (table : list Row.t) : list Row.t :=
  match answers with
  | [] => table
  | a :: rest => write_all rest (write_swot (Row.id a.1) a.2 table)
  end.

(** The records a batch collects for a list of answers. *)
Fixpoint collected (answers : list (Row.t * SWOTAnalysis)) (table : list Row.t)
    : list CompetitorResponse.t :=
  match answers with
  | [] => []
  | a :: rest =>
      match List.filter (has_id (Row.id a.1)) table with
      | [] => collected rest (write_swot (Row.id a.1) a.2 table)
      | r :: _ =>
          response_of_row (with_swot a.2 r)
            :: collected rest (write_swot (Row.id a.1) a.2 table)
      end
  end.

Section Service.

(** The model: the answer to the request sent after [n] earlier ones, a
    failure message or the parsed object. *)
Variable llm : nat → completion_request → string + SWOTAnalysis.

Definition completions_parse (request : completion_request) : M SWOTAnalysis :=
  λ w,
    let w' := {| db := db w; logged := logged w;
                 llm_calls := llm_calls w ++ [request]; db_writes := db_writes w |} in
    match llm (length (llm_calls w)) request with
    | inr parsed => (inr parsed, w')
    | inl message => (inl (OpenAIError message), w')
    end.

Definition swot_request (competitor_name : string) (existing_data : gmap string pyval) : completion_request :=
  {| model := "gpt-4o-2024-11-20";
     messages := [
       ("system", "You are a helpful assistant that performs SWOT analysis of loyalty programs.");
       ("user", swot_prompt competitor_name existing_data)
     ] |}.

Definition get_swot_analysis (competitor_name : string) (existing_data : gmap string pyval) : M SWOTAnalysis :=
  logger_info ("Performing SWOT analysis for " +:+ competitor_name) ;;
  completions_parse (swot_request competitor_name existing_data).

Definition swot_payload (swot : SWOTAnalysis) : list (string * pyval) :=
  [("competitor_strength", PyStr (strengths swot));
   ("competitor_weakness", PyStr (weaknesses swot));
   ("competitor_opportunity", PyStr (opportunities swot));
   ("competitor_threats", PyStr (threats swot))].

Definition update_competitor_swot (competitor_id : Z) (competitor_name : string)
    (existing_data : gmap string pyval) : M CompetitorResponse.t :=
  logger_info ("Updating SWOT analysis for competitor ID " +:+ pretty competitor_id
                 +:+ ": " +:+ competitor_name) ;;
  try_except
    (swot <- get_swot_analysis competitor_name existing_data ;;
     data <- table_update (swot_payload swot) (Eq "id" (PyInt competitor_id)) ;;
     updated_competitor <- first data ;;
     logger_info ("Successfully updated SWOT analysis for " +:+ competitor_name) ;;
     CompetitorResponse_init updated_competitor)
    (λ e,
       logger_error ("Error processing " +:+ competitor_name +:+ ": " +:+ str e) ;;
       raise e).

(** [GET /] *)
Definition root : M body :=
  logger_info "Health check endpoint called" ;;
  ret (Status "API is running").

(** [POST /update-single/{competitor_id}] *)
Definition update_single_competitor (competitor_id : Z) : M body :=
  try_except
    (logger_info ("Received request to update competitor ID: " +:+ pretty competitor_id) ;;
     data <- table_select selected_columns (Eq "id" (PyInt competitor_id)) ;;
     match data with
     | [] =>
         logger_error ("No competitor found with ID " +:+ pretty competitor_id) ;;
         raise (HTTPException 404 "Competitor not found")
     | competitor :: _ =>
         competitor_name <- subscript_str competitor "competitor_name" ;;
         updated_competitor <- update_competitor_swot competitor_id competitor_name competitor ;;
         ret (Competitor updated_competitor)
     end)
    (λ e,
       logger_error ("Error processing request: " +:+ str e) ;;
       raise (HTTPException 500 (str e))).

(** The [for competitor in response.data] loop of [update_all_competitors];
    [updated_competitors] is the list the loop appends to. *)
Fixpoint update_each (data : list (gmap string pyval))
    (updated_competitors : list CompetitorResponse.t) : M (list CompetitorResponse.t) :=
  match data with
  | [] => ret updated_competitors
  | competitor :: rest =>
      updated_competitors' <-
        try_except
          (competitor_id <- subscript_int competitor "id" ;;
           competitor_name <- subscript_str competitor "competitor_name" ;;
           updated <- update_competitor_swot competitor_id competitor_name competitor ;;
           logger_info ("Successfully processed " +:+ competitor_name) ;;
           ret (updated_competitors ++ [updated]))
          (λ e,
             competitor_name <- subscript_str competitor "competitor_name" ;;
             logger_error ("Error processing " +:+ competitor_name +:+ ": " +:+ str e) ;;
             ret updated_competitors) ;;
      update_each rest updated_competitors'
  end.

(** [POST /update-all] *)
Definition update_all_competitors : M body :=
  try_except
    (logger_info "Starting batch update of all competitors" ;;
     data <- table_select selected_columns (IsNull "competitor_strength") ;;
     match data with
     | [] =>
         logger_info "No competitors found needing SWOT analysis" ;;
         ret (Status "No competitors found needing updates")
     | _ =>
         logger_info ("Found " +:+ pretty (length data) +:+ " competitors to process") ;;
         updated_competitors <- update_each data [] ;;
         ret (Batch "success" (length updated_competitors) updated_competitors)
     end)
    (λ e,
       logger_error ("Error in batch update: " +:+ str e) ;;
       raise (HTTPException 500 (str e))).

(** What the framework sends for a handler: 200 with the returned value, the
    status and detail of an [HTTPException], 500 for any other exception. *)
Definition serve (handler : M body) (w : world) : http_response * world :=
  match handler w with
  | (inr b, w') => ({| status_code := 200; content := b |}, w')
  | (inl (HTTPException status detail), w') =>
      ({| status_code := status; content := Detail detail |}, w')
  | (inl _, w') => ({| status_code := 500; content := Detail "Internal Server Error" |}, w')
  end.

Inductive request :=
| GetRoot
| PostUpdateSingle (competitor_id : Z)
| PostUpdateAll.

Definition handle (r : request) : M body :=
  match r with
  | GetRoot => root
  | PostUpdateSingle competitor_id => update_single_competitor competitor_id
  | PostUpdateAll => update_all_competitors
  end.

(** The request the batch sends for a row of the table. *)
Definition row_request (r : Row.t) : completion_request :=
  swot_request (Row.competitor_name r) (select_columns selected_columns r).

(** The rows of a batch whose request the model answers, each with the
    answer; [n] requests were sent before the batch. *)
Fixpoint analysed (n : nat) (rows : list Row.t) : list (Row.t * SWOTAnalysis) :=
  match rows with
  | [] => []
  | r :: rest =>
      match llm n (row_request r) with
      | inr swot => (r, swot) :: analysed (S n) rest
      | inl _ => analysed (S n) rest
      end
  end.

End Service.

(** ** Sample data *)

Definition swot0 : SWOTAnalysis :=
  {| strengths := "S"; weaknesses := "W"; opportunities := "O"; threats := "T" |}.

Definition acme : Row.t := Row.make 7 "Acme" None None None None None None None None.
Definition beta : Row.t :=
  Row.make 8 "Beta" (Some "points") None None None (Some "old") None None None.
Definition gamma : Row.t := Row.make 9 "Gamma" None None None None None None None None.

Definition world0 : world :=
  {| db := [acme; beta; gamma]; logged := []; llm_calls := []; db_writes := [] |}.

Definition analysed_world : world :=
  {| db := [beta]; logged := []; llm_calls := []; db_writes := [] |}.

Definition llm_ok : nat → completion_request → string + SWOTAnalysis :=
  λ _ _, inr swot0.

Definition llm_down : nat → completion_request → string + SWOTAnalysis :=
  λ _ _, inl "rate limit".

(** The second request fails, the others are answered. *)
Definition llm_second_fails : nat → completion_request → string + SWOTAnalysis :=
  λ n _, if (n =? 1)%nat then inl "rate limit" else inr swot0.

(** ** Startup and shutdown *)

(** [os.getenv(name)] over the environment of the process. *)
Definition os_getenv (environ : gmap string string) (name : string) : option string :=
  environ !! name.

(** The truth value of what [os.getenv] returns: [None] and the empty
    string are false. *)
Definition truthy (v : option string) : bool :=
  match v with
  | None => false
  | Some EmptyString => false
  | Some (String _ _) => true
  end.

(** [all(values)] *)
Definition py_all (values : list (option string)) : bool := forallb truthy values.

Definition required_variables : list string :=
  ["OPENAI_API_KEY"; "SUPABASE_URL"; "SUPABASE_KEY"].

(** [lifespan] up to its [yield]. *)
Definition lifespan_startup (environ : gmap string string) : M unit :=
  logger_info "Starting up application..." ;;
  logger_info "Checking environment variables..." ;;
  if negb (py_all [os_getenv environ "OPENAI_API_KEY";
                   os_getenv environ "SUPABASE_URL";
                   os_getenv environ "SUPABASE_KEY"])
  then logger_error "Missing required environment variables!"
  else logger_info "All required environment variables are set".

(** [lifespan] after its [yield]. *)
Definition lifespan_shutdown : M unit :=
  logger_info "Shutting down application...".

(** ** Further specification functions and sample data *)

(** The four output columns of a row are all NULL or all set. *)
Definition outputs_consistent (r : Row.t) : Prop :=
  (Row.competitor_strength r = None ∧ Row.competitor_weakness r = None
   ∧ Row.competitor_opportunity r = None ∧ Row.competitor_threats r = None)
  ∨ (is_Some (Row.competitor_strength r) ∧ is_Some (Row.competitor_weakness r)
     ∧ is_Some (Row.competitor_opportunity r) ∧ is_Some (Row.competitor_threats r)).

(** The keys of [existing_data] the prompt reads. *)
Definition descriptive_columns : list string :=
  ["program_summary"; "competitor_positioning"; "competitor_rewards_benefits";
   "competitor_user_feedback"].

(** A table in which no row is analysed. *)
Definition fresh_world : world :=
  {| db := [acme; gamma]; logged := []; llm_calls := []; db_writes := [] |}.

(** An environment in which the store key is set to the empty string. *)
Definition environ_empty_key : gmap string string :=
  list_to_map [("OPENAI_API_KEY", "sk-test"); ("SUPABASE_URL", "https://db.example");
               ("SUPABASE_KEY", EmptyString)].

(** A dict without the key [id]. *)
Definition no_id : gmap string pyval :=
  list_to_map [("competitor_name", PyStr "Delta"); ("program_summary", PyNone)].

(** A dict without the key [competitor_name]. *)
Definition no_name : gmap string pyval :=
  list_to_map [("id", PyInt 5); ("program_summary", PyNone)].

(** A dict with a summary and nothing else. *)
Definition only_summary : gmap string pyval :=
  list_to_map [("program_summary", PyStr "Earn points on every stay")].

(** ** Equations of the store client on the payload of the updater *)

Lemma row_update_swot swot r :
  Row.update (swot_payload swot) r = Some (with_swot swot r).
Proof. reflexivity. Qed.

Lemma matches_eq_id competitor_id r :
  matches (Eq "id" (PyInt competitor_id)) r = has_id competitor_id r.
Proof.
  unfold matches, has_id.
  change (Row.to_dict r !! "id") with (Some (PyInt (Row.id r))).
  apply bool_decide_ext. split; [by intros [= ->] | by intros ->].
Qed.

Lemma matches_strength_null r :
  matches (IsNull "competitor_strength") r = needs_update r.
Proof.
  unfold matches, needs_update.
  change (Row.to_dict r !! "competitor_strength")
    with (Some (Row.nullable (Row.competitor_strength r))).
  apply bool_decide_ext.
  destruct (Row.competitor_strength r); simpl; split; congruence.
Qed.

Lemma updated_table_swot swot f rows :
  updated_table (swot_payload swot) f rows
  = Some (map (λ r, if matches f r then with_swot swot r else r) rows).
Proof.
  unfold updated_table. induction rows as [|r rows IH]; [done|].
  cbn [mapM map]. rewrite IH.
  destruct (matches f r); [rewrite row_update_swot|]; reflexivity.
Qed.

Lemma returned_rows_swot swot rows :
  mapM (Row.update (swot_payload swot)) rows = Some (map (with_swot swot) rows).
Proof.
  induction rows as [|r rows IH]; [done|].
  cbn [mapM map]. rewrite IH, row_update_swot. reflexivity.
Qed.

Lemma table_update_swot swot f w :
  table_update (swot_payload swot) f w
  = (inr (map Row.to_dict (map (with_swot swot) (List.filter (matches f) (db w)))),
     {| db := map (λ r, if matches f r then with_swot swot r else r) (db w);
        logged := logged w; llm_calls := llm_calls w;
        db_writes := db_writes w ++ [(swot_payload swot, f)] |}).
Proof.
  unfold table_update. rewrite updated_table_swot, returned_rows_swot. reflexivity.
Qed.

Lemma CompetitorResponse_init_row r w :
  CompetitorResponse_init (Row.to_dict r) w = (inr (response_of_row r), w).
Proof.
  destruct r as [i n ? ? ? ? s wk o t].
  destruct s, wk, o, t; reflexivity.
Qed.

Lemma subscript_id_selected r w :
  subscript_int (select_columns selected_columns r) "id" w = (inr (Row.id r), w).
Proof. reflexivity. Qed.

Lemma subscript_name_selected r w :
  subscript_str (select_columns selected_columns r) "competitor_name" w
  = (inr (Row.competitor_name r), w).
Proof. reflexivity. Qed.

(** ** Equations of the updater and of the handlers *)

Section Equations.

Variable llm : nat → completion_request → string + SWOTAnalysis.

(** The updater, case by case. *)
Lemma update_competitor_swot_eq competitor_id competitor_name existing_data w :
  update_competitor_swot llm competitor_id competitor_name existing_data w =
  match llm (length (llm_calls w)) (swot_request competitor_name existing_data) with
  | inl message =>
      (inl (OpenAIError message),
       {| db := db w;
          logged := logged w ++ updater_log competitor_id competitor_name
                      (ERROR, "Error processing " +:+ competitor_name +:+ ": " +:+ message);
          llm_calls := llm_calls w ++ [swot_request competitor_name existing_data];
          db_writes := db_writes w |})
  | inr swot =>
      match List.filter (has_id competitor_id) (db w) with
      | [] =>
          (inl IndexError,
           {| db := write_swot competitor_id swot (db w);
              logged := logged w ++ updater_log competitor_id competitor_name
                          (ERROR, "Error processing " +:+ competitor_name
                                    +:+ ": list index out of range");
              llm_calls := llm_calls w ++ [swot_request competitor_name existing_data];
              db_writes := db_writes w
                           ++ [(swot_payload swot, Eq "id" (PyInt competitor_id))] |})
      | r :: _ =>
          (inr (response_of_row (with_swot swot r)),
           {| db := write_swot competitor_id swot (db w);
              logged := logged w ++ updater_log competitor_id competitor_name
                          (INFO, "Successfully updated SWOT analysis for " +:+ competitor_name);
              llm_calls := llm_calls w ++ [swot_request competitor_name existing_data];
              db_writes := db_writes w
                           ++ [(swot_payload swot, Eq "id" (PyInt competitor_id))] |})
      end
  end.
Proof.
  unfold updater_log, update_competitor_swot, get_swot_analysis, completions_parse, try_except, bind,
    logger_info, logger_error, raise.
  cbn [db logged llm_calls db_writes].
  destruct (llm (length (llm_calls w)) (swot_request competitor_name existing_data))
    as [message|swot].
  { cbn [db logged llm_calls db_writes str]. by rewrite <- !app_assoc. }
  rewrite table_update_swot. cbn [db logged llm_calls db_writes].
  assert (Hf : List.filter (matches (Eq "id" (PyInt competitor_id))) (db w)
               = List.filter (has_id competitor_id) (db w)).
  { apply List.filter_ext. intros r. apply matches_eq_id. }
  assert (Hm : map (λ r, if matches (Eq "id" (PyInt competitor_id)) r then with_swot swot r else r) (db w)
               = write_swot competitor_id swot (db w)).
  { unfold write_swot. apply map_ext. intros r. by rewrite matches_eq_id. }
  rewrite Hf, Hm.
  destruct (List.filter (has_id competitor_id) (db w)) as [|r rest].
  { cbn [map first raise str db logged llm_calls db_writes]. by rewrite <- !app_assoc. }
  cbn [map first ret]. rewrite CompetitorResponse_init_row.
  cbn [db logged llm_calls db_writes]. by rewrite <- !app_assoc.
Qed.

(** The loop of the batch, in closed form. *)
Lemma update_each_eq rows : ∀ updated_competitors w,
  ∃ lines,
    update_each llm (map (select_columns selected_columns) rows) updated_competitors w =
    (inr (updated_competitors ++ collected (analysed llm (length (llm_calls w)) rows) (db w)),
     {| db := write_all (analysed llm (length (llm_calls w)) rows) (db w);
        logged := logged w ++ lines;
        llm_calls := llm_calls w ++ map row_request rows;
        db_writes := db_writes w
                     ++ map statement_of (analysed llm (length (llm_calls w)) rows) |}).
Proof.
  induction rows as [|r rows IH]; intros acc w.
  { exists []. cbn. rewrite !app_nil_r. by destruct w. }
  cbn [map update_each analysed].
  unfold bind at 1. unfold try_except.
  unfold bind at 1. rewrite subscript_id_selected.
  unfold bind at 1. rewrite subscript_name_selected.
  unfold bind at 1. rewrite update_competitor_swot_eq.
  fold (row_request r).
  destruct (llm (length (llm_calls w)) (row_request r)) as [message|swot].
  - unfold bind at 1. rewrite subscript_name_selected.
    unfold bind at 1, logger_error, ret. cbn [db logged llm_calls db_writes].
    match goal with |- context [update_each llm _ acc ?w1] =>
      destruct (IH acc w1) as [lines ->] end.
    cbn [db logged llm_calls db_writes].
    rewrite length_app, Nat.add_1_r.
    eexists. rewrite <- !app_assoc. reflexivity.
  - cbn [collected write_all map fst snd].
    change (swot_payload swot, Eq "id" (PyInt (Row.id r))) with (statement_of (r, swot)).
    destruct (List.filter (has_id (Row.id r)) (db w)) as [|r0 matched].
    + unfold bind at 1. rewrite subscript_name_selected.
      unfold bind at 1, logger_error, ret. cbn [db logged llm_calls db_writes].
      match goal with |- context [update_each llm _ acc ?w1] =>
        destruct (IH acc w1) as [lines ->] end.
      cbn [db logged llm_calls db_writes].
      rewrite length_app, Nat.add_1_r.
      eexists. rewrite <- !app_assoc. reflexivity.
    + unfold bind at 1, logger_info, ret. cbn [db logged llm_calls db_writes].
      match goal with |- context [update_each llm _ ?acc1 ?w1] =>
        destruct (IH acc1 w1) as [lines ->] end.
      cbn [db logged llm_calls db_writes].
      rewrite length_app, Nat.add_1_r.
      eexists. rewrite <- !app_assoc. reflexivity.
Qed.


Lemma select_by_id competitor_id w :
  table_select selected_columns (Eq "id" (PyInt competitor_id)) w
  = (inr (map (select_columns selected_columns) (List.filter (has_id competitor_id) (db w))), w).
Proof.
  unfold table_select. do 3 f_equal.
  apply List.filter_ext. intros r. apply matches_eq_id.
Qed.

Lemma select_unanalysed w :
  table_select selected_columns (IsNull "competitor_strength") w
  = (inr (map (select_columns selected_columns) (List.filter needs_update (db w))), w).
Proof.
  unfold table_select. do 3 f_equal.
  apply List.filter_ext. intros r. apply matches_strength_null.
Qed.

(** The single-competitor handler when no row has the id. *)
Lemma update_single_absent competitor_id w :
  List.filter (has_id competitor_id) (db w) = [] →
  update_single_competitor llm competitor_id w =
  (inl (HTTPException 500 "404: Competitor not found"),
   {| db := db w;
      logged := logged w ++
        [(INFO, "Received request to update competitor ID: " +:+ pretty competitor_id);
         (ERROR, "No competitor found with ID " +:+ pretty competitor_id);
         (ERROR, "Error processing request: 404: Competitor not found")];
      llm_calls := llm_calls w;
      db_writes := db_writes w |}).
Proof.
  intros Habsent.
  unfold update_single_competitor, try_except.
  unfold bind at 1. unfold logger_info at 1.
  unfold bind at 1. rewrite select_by_id. cbn [db]. rewrite Habsent. cbn [map].
  unfold bind, logger_error, raise. cbn [db logged llm_calls db_writes].
  rewrite <- !app_assoc. reflexivity.
Qed.

(** The single-competitor handler when a row has the id: the first such row
    goes to the updater, whose failure becomes a 500. *)
Lemma update_single_present competitor_id w r rest :
  List.filter (has_id competitor_id) (db w) = r :: rest →
  update_single_competitor llm competitor_id w =
  match update_competitor_swot llm competitor_id (Row.competitor_name r)
          (select_columns selected_columns r)
          {| db := db w;
             logged := logged w ++
               [(INFO, "Received request to update competitor ID: " +:+ pretty competitor_id)];
             llm_calls := llm_calls w;
             db_writes := db_writes w |} with
  | (inr updated, w') => (inr (Competitor updated), w')
  | (inl e, w') =>
      (inl (HTTPException 500 (str e)),
       {| db := db w';
          logged := logged w' ++ [(ERROR, "Error processing request: " +:+ str e)];
          llm_calls := llm_calls w';
          db_writes := db_writes w' |})
  end.
Proof.
  intros Hpresent.
  unfold update_single_competitor, try_except.
  unfold bind at 1. unfold logger_info at 1.
  unfold bind at 1. rewrite select_by_id. cbn [db]. rewrite Hpresent. cbn [map].
  unfold bind at 1. rewrite subscript_name_selected.
  unfold bind at 1.
  destruct (update_competitor_swot llm competitor_id _ _ _) as [[e|updated] w']; reflexivity.
Qed.

(** The batch handler, in closed form. *)
Lemma update_all_eq w :
  ∃ lines,
    update_all_competitors llm w =
    (inr match List.filter needs_update (db w) with
         | [] => Status "No competitors found needing updates"
         | rows =>
             Batch "success"
               (length (collected (analysed llm (length (llm_calls w)) rows) (db w)))
               (collected (analysed llm (length (llm_calls w)) rows) (db w))
         end,
     {| db := write_all (analysed llm (length (llm_calls w))
                           (List.filter needs_update (db w))) (db w);
        logged := logged w ++ lines;
        llm_calls := llm_calls w ++ map row_request (List.filter needs_update (db w));
        db_writes := db_writes w
                     ++ map statement_of (analysed llm (length (llm_calls w))
                                            (List.filter needs_update (db w))) |}).
Proof.
  unfold update_all_competitors, try_except.
  unfold bind at 1. unfold logger_info at 1.
  unfold bind at 1. rewrite select_unanalysed. cbn [db].
  destruct (List.filter needs_update (db w)) as [|r rows] eqn:Hrows.
  { exists [(INFO, "Starting batch update of all competitors");
             (INFO, "No competitors found needing SWOT analysis")].
    cbn. rewrite !app_nil_r, <- !app_assoc. reflexivity. }
  pose proof (update_each_eq (r :: rows) []
    {| db := db w;
       logged := (logged w ++ [(INFO, "Starting batch update of all competitors")]) ++
         [(INFO, "Found " +:+ pretty (length (map (select_columns selected_columns) (r :: rows)))
                   +:+ " competitors to process")];
       llm_calls := llm_calls w;
       db_writes := db_writes w |}) as [lines Heq].
  cbn [db logged llm_calls db_writes] in Heq.
  cbn [map] in *.
  unfold bind at 1. unfold logger_info at 1. cbn [db logged llm_calls db_writes].
  unfold bind at 1. rewrite Heq. unfold ret. cbn [app].
  eexists. rewrite <- !app_assoc. reflexivity.
Qed.

End Equations.

(** ** Properties of the specification functions *)

Lemma same_inputs_refl r : same_inputs r r.
Proof. by repeat split. Qed.

Lemma same_inputs_trans r1 r2 r3 :
  same_inputs r1 r2 → same_inputs r2 r3 → same_inputs r1 r3.
Proof. unfold same_inputs. intros (?&?&?&?&?&?) (?&?&?&?&?&?). repeat split; congruence. Qed.

Lemma with_swot_same_inputs swot r : same_inputs r (with_swot swot r).
Proof. by repeat split. Qed.

Lemma patch_same_inputs answers : ∀ r, same_inputs r (patch answers r).
Proof.
  induction answers as [|a answers IH]; intros r; cbn [patch].
  { apply same_inputs_refl. }
  eapply same_inputs_trans; [|apply IH].
  destruct (has_id (Row.id a.1) r); [apply with_swot_same_inputs | apply same_inputs_refl].
Qed.

Lemma patch_other answers : ∀ r,
  Forall (λ a, Row.id a.1 ≠ Row.id r) answers → patch answers r = r.
Proof.
  induction answers as [|a answers IH]; intros r Hother; cbn [patch]; [done|].
  inversion Hother as [|? ? Ha Hrest]; subst.
  unfold has_id. rewrite bool_decide_eq_false_2 by congruence. by apply IH.
Qed.

Lemma write_all_patch answers : ∀ table,
  write_all answers table = map (patch answers) table.
Proof.
  induction answers as [|a answers IH]; intros table; cbn [write_all patch].
  { by rewrite map_id. }
  rewrite IH. unfold write_swot. by rewrite map_map.
Qed.

Lemma write_all_same_inputs answers table :
  Forall2 same_inputs table (write_all answers table).
Proof.
  rewrite write_all_patch.
  induction table as [|r table IH]; cbn [map]; constructor; [apply patch_same_inputs | done].
Qed.

Lemma write_all_ids answers table :
  map Row.id (write_all answers table) = map Row.id table.
Proof.
  rewrite write_all_patch, map_map. apply map_ext.
  intros r. apply (patch_same_inputs answers r).
Qed.

Lemma write_all_other answers table (i : nat) r :
  table !! i = Some r →
  Forall (λ a, Row.id a.1 ≠ Row.id r) answers →
  write_all answers table !! i = Some r.
Proof.
  intros Hi Hother. rewrite write_all_patch.
  change (map (patch answers) table) with (patch answers <$> table).
  rewrite list_lookup_fmap, Hi. cbn. by rewrite patch_other.
Qed.

Lemma filter_has_id_head competitor_id table r rest :
  List.filter (has_id competitor_id) table = r :: rest →
  Row.id r = competitor_id ∧ In r table.
Proof.
  intros Hf.
  assert (Hin : In r (List.filter (has_id competitor_id) table)) by (rewrite Hf; by left).
  apply List.filter_In in Hin as [Hin Hid].
  split; [|done]. unfold has_id in Hid. by apply bool_decide_eq_true_1 in Hid.
Qed.

Lemma filter_has_id_nil competitor_id table :
  List.filter (has_id competitor_id) table = [] →
  ¬ In competitor_id (map Row.id table).
Proof.
  intros Hf Hin. apply List.in_map_iff in Hin as (r & Hid & Hin).
  assert (Hr : In r (List.filter (has_id competitor_id) table)).
  { apply List.filter_In. split; [done|]. unfold has_id. by apply bool_decide_eq_true_2. }
  by rewrite Hf in Hr.
Qed.

Lemma statement_of_swot a : swot_statement (statement_of a).
Proof. split; [reflexivity | by eexists]. Qed.

(** The records of a batch carry the ids of the answered rows, in order. *)
Lemma collected_ids_sublist answers : ∀ table,
  sublist (map CompetitorResponse.id (collected answers table))
          (map (λ a, Row.id a.1) answers).
Proof.
  induction answers as [|a answers IH]; intros table; cbn [collected map]; [done|].
  destruct (List.filter (has_id (Row.id a.1)) table) as [|r rest] eqn:Hf.
  - apply sublist_cons, IH.
  - cbn [map]. apply filter_has_id_head in Hf as [Hid _].
    change (CompetitorResponse.id (response_of_row (with_swot a.2 r))) with (Row.id r).
    rewrite Hid. apply sublist_skip, IH.
Qed.

Lemma collected_ids answers : ∀ table,
  Forall (λ a, In (Row.id a.1) (map Row.id table)) answers →
  map CompetitorResponse.id (collected answers table) = map (λ a, Row.id a.1) answers.
Proof.
  induction answers as [|a answers IH]; intros table Hin; cbn [collected map]; [done|].
  inversion Hin as [|? ? Ha Hrest]; subst.
  assert (Hnext : Forall (λ b, In (Row.id b.1)
                    (map Row.id (write_swot (Row.id a.1) a.2 table))) answers).
  { change (write_swot (Row.id a.1) a.2 table) with (write_all [a] table).
    by rewrite write_all_ids. }
  destruct (List.filter (has_id (Row.id a.1)) table) as [|r rest] eqn:Hf.
  - by apply filter_has_id_nil in Hf.
  - cbn [map]. apply filter_has_id_head in Hf as [Hid _].
    change (CompetitorResponse.id (response_of_row (with_swot a.2 r))) with (Row.id r).
    rewrite Hid. f_equal. by apply IH.
Qed.

Section Answers.

Variable llm : nat → completion_request → string + SWOTAnalysis.

Lemma analysed_sublist rows : ∀ n, sublist (map fst (analysed llm n rows)) rows.
Proof.
  induction rows as [|r rows IH]; intros n; cbn [analysed]; [done|].
  destruct (llm n (row_request r)); cbn [map fst].
  - apply sublist_cons, IH.
  - apply sublist_skip, IH.
Qed.

Lemma analysed_in rows n a : In a (analysed llm n rows) → In a.1 rows.
Proof.
  intros Hin. apply list_elem_of_In.
  eapply elem_of_sublist; [|apply (analysed_sublist rows n)].
  apply list_elem_of_In. by apply List.in_map.
Qed.

(** No request is answered: nothing to write. *)
Lemma analysed_all_fail rows : ∀ n,
  (∀ (j : nat) r, rows !! j = Some r → ∃ message, llm (n + j) (row_request r) = inl message) →
  analysed llm n rows = [].
Proof.
  induction rows as [|r rows IH]; intros n Hfail; cbn [analysed]; [done|].
  destruct (Hfail 0%nat r eq_refl) as [message Hm].
  rewrite Nat.add_0_r in Hm. rewrite Hm.
  apply IH. intros j r' Hj. rewrite Nat.add_succ_comm. by apply (Hfail (S j)).
Qed.

(** Every request is answered: every row is written. *)
Lemma analysed_all_succeed rows : ∀ n,
  (∀ (j : nat) r, rows !! j = Some r → ∃ swot, llm (n + j) (row_request r) = inr swot) →
  map fst (analysed llm n rows) = rows.
Proof.
  induction rows as [|r rows IH]; intros n Hok; cbn [analysed]; [done|].
  destruct (Hok 0%nat r eq_refl) as [swot Hs].
  rewrite Nat.add_0_r in Hs. rewrite Hs. cbn [map fst]. f_equal.
  apply IH. intros j r' Hj. rewrite Nat.add_succ_comm. by apply (Hok (S j)).
Qed.

(** Exactly the request of position [k] fails: that row is left out. *)
Lemma analysed_one_fails rows : ∀ n (k : nat) rk,
  rows !! k = Some rk →
  (∃ message, llm (n + k) (row_request rk) = inl message) →
  (∀ (j : nat) r, j ≠ k → rows !! j = Some r →
     ∃ swot, llm (n + j) (row_request r) = inr swot) →
  map fst (analysed llm n rows) = delete k rows.
Proof.
  induction rows as [|r rows IH]; intros n k rk Hk Hfail Hok; [done|].
  cbn [analysed]. destruct k as [|k].
  - injection Hk as ->. destruct Hfail as [message Hm].
    rewrite Nat.add_0_r in Hm. rewrite Hm. cbn [delete list_delete].
    apply analysed_all_succeed. intros j r' Hj.
    rewrite Nat.add_succ_comm. by apply (Hok (S j)).
  - destruct (Hok 0%nat r) as [swot Hs]; [done | done |].
    rewrite Nat.add_0_r in Hs. rewrite Hs. cbn [map fst delete list_delete]. f_equal.
    apply (IH (S n) k rk); [done | by rewrite Nat.add_succ_comm |].
    intros j r' Hne Hj. rewrite Nat.add_succ_comm. apply (Hok (S j)); [lia | done].
Qed.

End Answers.

(** ** The prompt *)

Lemma append_assoc s1 s2 s3 : (s1 +:+ s2) +:+ s3 = s1 +:+ s2 +:+ s3.
Proof.
  induction s1 as [|c s1 IH]; [reflexivity|].
  change (String c ((s1 +:+ s2) +:+ s3) = String c (s1 +:+ s2 +:+ s3)).
  by rewrite IH.
Qed.

Lemma prefix_app sub : ∀ post, String.prefix sub (sub +:+ post) = true.
Proof.
  induction sub as [|c sub IH]; intros post.
  - by destruct post.
  - change (String c sub +:+ post) with (String c (sub +:+ post)).
    cbn [String.prefix]. destruct (Ascii.ascii_dec c c); [apply IH | done].
Qed.

Lemma py_in_unfold sub s :
  py_in sub s = String.prefix sub s
                || match s with
                   | EmptyString => false
                   | String _ s' => py_in sub s'
                   end.
Proof. by destruct s. Qed.

(** [py_in] finds every occurrence [contains] speaks of. *)
Lemma contains_py_in s sub : contains s sub → py_in sub s = true.
Proof.
  intros (pre & post & ->). induction pre as [|c pre IH].
  - change (EmptyString +:+ sub +:+ post) with (sub +:+ post).
    rewrite py_in_unfold, prefix_app. reflexivity.
  - change (String c pre +:+ sub +:+ post) with (String c (pre +:+ sub +:+ post)).
    rewrite py_in_unfold, IH. apply orb_true_r.
Qed.

Lemma contains_here sub post : contains (sub +:+ post) sub.
Proof. by exists EmptyString, post. Qed.

Lemma contains_later pre s sub : contains s sub → contains (pre +:+ s) sub.
Proof.
  intros (pre' & post & ->). exists (pre +:+ pre'), post.
  by rewrite append_assoc.
Qed.

(** The prompt names the competitor. *)
Lemma swot_prompt_contains_name competitor_name existing_data :
  contains (swot_prompt competitor_name existing_data) competitor_name.
Proof. unfold swot_prompt. apply contains_later, contains_here. Qed.

(** A descriptive field whose key is missing from the dict prints as the
    placeholder. *)
Lemma swot_prompt_missing_key competitor_name existing_data :
  (existing_data !! "program_summary" = None →
   contains (swot_prompt competitor_name existing_data) "Program Summary: N/A")
  ∧ (existing_data !! "competitor_positioning" = None →
     contains (swot_prompt competitor_name existing_data) "Market Positioning: N/A")
  ∧ (existing_data !! "competitor_rewards_benefits" = None →
     contains (swot_prompt competitor_name existing_data) "Rewards and Benefits: N/A")
  ∧ (existing_data !! "competitor_user_feedback" = None →
     contains (swot_prompt competitor_name existing_data) "User Feedback: N/A").
Proof.
  unfold swot_prompt, dict_get.
  repeat split; intros ->; cbn [py_format];
    do 5 apply contains_later.
  - eexists "   ", _; cbv [String.append]; reflexivity.
  - do 3 apply contains_later. eexists "   ", _; cbv [String.append]; reflexivity.
  - do 6 apply contains_later. eexists "   ", _; cbv [String.append]; reflexivity.
  - do 9 apply contains_later. eexists "   ", _; cbv [String.append]; reflexivity.
Qed.

(** A descriptive field whose key is bound to [None] prints as [None]. *)
Lemma swot_prompt_null_value competitor_name existing_data :
  (existing_data !! "program_summary" = Some PyNone →
   contains (swot_prompt competitor_name existing_data) "Program Summary: None")
  ∧ (existing_data !! "competitor_positioning" = Some PyNone →
     contains (swot_prompt competitor_name existing_data) "Market Positioning: None")
  ∧ (existing_data !! "competitor_rewards_benefits" = Some PyNone →
     contains (swot_prompt competitor_name existing_data) "Rewards and Benefits: None")
  ∧ (existing_data !! "competitor_user_feedback" = Some PyNone →
     contains (swot_prompt competitor_name existing_data) "User Feedback: None").
Proof.
  unfold swot_prompt, dict_get.
  repeat split; intros ->; cbn [py_format];
    do 5 apply contains_later.
  - eexists "   ", _; cbv [String.append]; reflexivity.
  - do 3 apply contains_later. eexists "   ", _; cbv [String.append]; reflexivity.
  - do 6 apply contains_later. eexists "   ", _; cbv [String.append]; reflexivity.
  - do 9 apply contains_later. eexists "   ", _; cbv [String.append]; reflexivity.
Qed.

(** With no descriptive key in the dict the prompt has the placeholder four
    times. *)
Example swot_prompt_no_keys : str_count (swot_prompt "Acme" ∅) "N/A" = 4%nat.
Proof. reflexivity. Qed.

(** C2, at the dict the store returns for a row whose four descriptive
    columns are NULL: the keys are present and bound to [None], so the prompt
    prints [None] four times and the placeholder [N/A] nowhere. *)
Theorem swot_prompt_null_columns_print_None :
  let existing_data := select_columns selected_columns acme in
  let prompt := swot_prompt (Row.competitor_name acme) existing_data in
  existing_data !! "program_summary" = Some PyNone
  ∧ existing_data !! "competitor_positioning" = Some PyNone
  ∧ existing_data !! "competitor_rewards_benefits" = Some PyNone
  ∧ existing_data !! "competitor_user_feedback" = Some PyNone
  ∧ prompt =
      "Perform a detailed SWOT analysis of Acme's loyalty program based on this existing data:"
        +:+ nl +:+ nl
        +:+ "   Program Summary: None" +:+ nl
        +:+ "   Market Positioning: None" +:+ nl
        +:+ "   Rewards and Benefits: None" +:+ nl
        +:+ "   User Feedback: None" +:+ nl +:+ nl
        +:+ "   Provide a comprehensive SWOT analysis with each component in 3 bullet points."
  ∧ ¬ contains prompt "N/A"
  ∧ str_count prompt "N/A" = 0%nat
  ∧ str_count prompt "None" = 4%nat.
Proof.
  cbv zeta. repeat split; try reflexivity.
  intros Hin. apply contains_py_in in Hin. vm_compute in Hin. discriminate.
Qed.

(** ** The updater *)

Section Updater.

Variable llm : nat → completion_request → string + SWOTAnalysis.

(** C3: when the model call of the updater fails, the updater logs the
    failure and raises the same exception; it sends no update statement,
    leaves the table as it was and returns no value. *)
Theorem update_competitor_swot_llm_failure competitor_id competitor_name existing_data w message :
  llm (length (llm_calls w)) (swot_request competitor_name existing_data) = inl message →
  let result := update_competitor_swot llm competitor_id competitor_name existing_data w in
  (get_swot_analysis llm competitor_name existing_data w).1 = inl (OpenAIError message)
  ∧ result.1 = inl (OpenAIError message)
  ∧ last (logged result.2)
    = Some (ERROR, "Error processing " +:+ competitor_name +:+ ": " +:+ message)
  ∧ db_writes result.2 = db_writes w
  ∧ db result.2 = db w
  ∧ llm_calls result.2 = llm_calls w ++ [swot_request competitor_name existing_data].
Proof.
  intros Hfail result. subst result.
  rewrite update_competitor_swot_eq, Hfail. cbn [fst snd db logged llm_calls db_writes].
  split.
  { unfold get_swot_analysis, bind, logger_info, completions_parse.
    cbn [db logged llm_calls db_writes]. by rewrite Hfail. }
  split; [done|]. split; [|done].
  unfold updater_log.
  match goal with
  | |- last (?l ++ [?a; ?b; ?c]) = _ => change (last (l ++ [a; b] ++ [c]) = Some c)
  end.
  rewrite app_assoc. apply last_snoc.
Qed.

(** C6: a run of the updater that returns a record has sent exactly one
    request to the model and exactly one update statement to the store. *)
Theorem update_competitor_swot_one_call_one_write
    competitor_id competitor_name existing_data w updated w' :
  update_competitor_swot llm competitor_id competitor_name existing_data w = (inr updated, w') →
  ∃ swot,
    llm_calls w' = llm_calls w ++ [swot_request competitor_name existing_data]
    ∧ db_writes w' = db_writes w ++ [(swot_payload swot, Eq "id" (PyInt competitor_id))]
    ∧ length (llm_calls w') = S (length (llm_calls w))
    ∧ length (db_writes w') = S (length (db_writes w)).
Proof.
  rewrite update_competitor_swot_eq.
  destruct (llm (length (llm_calls w)) _) as [message|swot]; [done|].
  destruct (List.filter (has_id competitor_id) (db w)) as [|r rest]; [done|].
  intros [= _ <-]. exists swot. cbn [db logged llm_calls db_writes].
  rewrite !length_app. cbn [length]. repeat split; lia.
Qed.

(** C10: when the model answers and the update statement matches no row,
    the updater raises the [IndexError] of [response.data[0]]; and whenever
    the updater returns a record, the record is read from a row of the table
    that has the requested id and was overwritten by the statement. *)
Theorem update_competitor_swot_only_updated_rows competitor_id competitor_name existing_data w :
  let result := update_competitor_swot llm competitor_id competitor_name existing_data w in
  (∀ swot,
     llm (length (llm_calls w)) (swot_request competitor_name existing_data) = inr swot →
     (table_update (swot_payload swot) (Eq "id" (PyInt competitor_id)) w).1 = inr [] →
     result.1 = inl IndexError ∧ db result.2 = db w)
  ∧ (∀ updated,
       result.1 = inr updated →
       ∃ swot r data,
         llm (length (llm_calls w)) (swot_request competitor_name existing_data) = inr swot
         ∧ In r (db w) ∧ Row.id r = competitor_id
         ∧ (table_update (swot_payload swot) (Eq "id" (PyInt competitor_id)) w).1
           = inr (Row.to_dict (with_swot swot r) :: data)
         ∧ In (with_swot swot r) (db result.2)
         ∧ updated = response_of_row (with_swot swot r)).
Proof.
  intros result. subst result. rewrite update_competitor_swot_eq.
  assert (Hf : List.filter (matches (Eq "id" (PyInt competitor_id))) (db w)
               = List.filter (has_id competitor_id) (db w)).
  { apply List.filter_ext. intros r. apply matches_eq_id. }
  split.
  - intros swot -> Hempty. rewrite table_update_swot, Hf in Hempty.
    cbn [fst] in Hempty.
    destruct (List.filter (has_id competitor_id) (db w)) as [|r rest] eqn:Hrows; [|done].
    cbn [fst snd db]. split; [done|].
    unfold write_swot. rewrite <- (map_id (db w)) at 2. apply map_ext_in.
    intros r Hr. destruct (has_id competitor_id r) eqn:Hid; [|done].
    exfalso. assert (Hin : In r (List.filter (has_id competitor_id) (db w))).
    { apply List.filter_In. by split. }
    by rewrite Hrows in Hin.
  - intros updated.
    destruct (llm (length (llm_calls w)) _) as [message|swot]; [done|].
    destruct (List.filter (has_id competitor_id) (db w)) as [|r rest] eqn:Hrows; [done|].
    cbn [fst snd db]. intros [= <-].
    destruct (filter_has_id_head _ _ _ _ Hrows) as [Hid Hin].
    exists swot, r, (map Row.to_dict (map (with_swot swot) rest)).
    rewrite table_update_swot, Hf. cbn [fst map].
    repeat split; try done.
    unfold write_swot. apply List.in_map_iff. exists r. split; [|done].
    unfold has_id. by rewrite bool_decide_eq_true_2.
Qed.

(** The single-competitor endpoint for an id no row has: the 404 raised in
    the handler is caught by the handler's own [except Exception] and sent as
    a 500; the store is only read. *)
Lemma update_single_absent_response competitor_id w :
  ¬ In competitor_id (map Row.id (db w)) →
  let result := serve (update_single_competitor llm competitor_id) w in
  result.1 = {| status_code := 500; content := Detail "404: Competitor not found" |}
  ∧ db_writes result.2 = db_writes w
  ∧ db result.2 = db w
  ∧ llm_calls result.2 = llm_calls w.
Proof.
  intros Habsent result. subst result. unfold serve.
  rewrite update_single_absent; [done|].
  destruct (List.filter (has_id competitor_id) (db w)) as [|r rest] eqn:Hrows; [done|].
  destruct (filter_has_id_head _ _ _ _ Hrows) as [Hid Hin].
  exfalso. apply Habsent. apply List.in_map_iff. by exists r.
Qed.

(** C1, at id 1 in a table whose ids are 7, 8 and 9: the caller gets status
    500 with the text of the 404 as detail; nothing is written. *)
Theorem update_single_unknown_id_answers_500 :
  serve (update_single_competitor llm 1) world0 =
  ({| status_code := 500; content := Detail "404: Competitor not found" |},
   {| db := [acme; beta; gamma];
      logged := [(INFO, "Received request to update competitor ID: 1");
                 (ERROR, "No competitor found with ID 1");
                 (ERROR, "Error processing request: 404: Competitor not found")];
      llm_calls := [];
      db_writes := [] |}).
Proof. unfold serve. rewrite update_single_absent; reflexivity. Qed.

(** C5: when the query of the batch endpoint returns no row, the endpoint
    answers 200 with the status "No competitors found needing updates" and
    sends nothing to the model or to the store. *)
Theorem update_all_nothing_to_do w :
  (table_select selected_columns (IsNull "competitor_strength") w).1 = inr [] →
  let result := serve (update_all_competitors llm) w in
  result.1 = {| status_code := 200; content := Status "No competitors found needing updates" |}
  ∧ llm_calls result.2 = llm_calls w
  ∧ db_writes result.2 = db_writes w
  ∧ db result.2 = db w.
Proof.
  intros Hempty result. subst result.
  rewrite select_unanalysed in Hempty. cbn [fst] in Hempty.
  injection Hempty as Hempty. apply map_eq_nil in Hempty.
  destruct (update_all_eq llm w) as [lines Heq].
  unfold serve. rewrite Heq, Hempty. cbn. by rewrite !app_nil_r.
Qed.

End Updater.

(** ** The handlers *)

Lemma filter_sublist {A} (p : A → bool) (l : list A) : sublist (List.filter p l) l.
Proof.
  induction l as [|x l IH]; cbn [List.filter]; [done|].
  destruct (p x); [by apply sublist_skip | by apply sublist_cons].
Qed.

Lemma NoDup_delete_not_in {A} (l : list A) : ∀ (k : nat) x,
  NoDup l → l !! k = Some x → x ∉ delete k l.
Proof.
  induction l as [|y l IH]; intros k x Hnd Hk; [done|].
  apply NoDup_cons in Hnd as [Hy Hnd].
  destruct k as [|k]; cbn in *.
  - by injection Hk as ->.
  - intros [->|Hin]%elem_of_cons.
    + apply Hy. by eapply list_elem_of_lookup_2.
    + by apply (IH k x).
Qed.

Lemma unanalysed_rows table :
  List.filter (matches (IsNull "competitor_strength")) table = List.filter needs_update table.
Proof. apply List.filter_ext. intros r. apply matches_strength_null. Qed.

Section Handlers.

Variable llm : nat → completion_request → string + SWOTAnalysis.

Lemma serve_world handler w : (serve handler w).2 = (handler w).2.
Proof. unfold serve. by destruct (handler w) as [[[]|] ?]. Qed.

(** Each request leaves the table as a list of answers patches it, and
    sends the statements of those answers. *)
Lemma handle_effect (req : request) w :
  ∃ answers,
    db (handle llm req w).2 = write_all answers (db w)
    ∧ db_writes (handle llm req w).2 = db_writes w ++ map statement_of answers.
Proof.
  destruct req as [|competitor_id|]; cbn [handle].
  - exists []. cbn. by rewrite app_nil_r.
  - destruct (List.filter (has_id competitor_id) (db w)) as [|r rest] eqn:Hrows.
    { exists []. rewrite update_single_absent by done. cbn. by rewrite app_nil_r. }
    rewrite (update_single_present llm competitor_id w r rest Hrows).
    rewrite update_competitor_swot_eq. cbn [db logged llm_calls db_writes].
    destruct (llm (length (llm_calls w)) _) as [message|swot].
    { exists []. cbn. by rewrite app_nil_r. }
    rewrite Hrows. destruct (filter_has_id_head _ _ _ _ Hrows) as [<- _].
    by exists [(r, swot)].
  - destruct (update_all_eq llm w) as [lines ->]. by eexists.
Qed.

(** C8: whatever the request, every update statement the service sends
    sets exactly the four output columns and filters on one id; in every row
    the id, the name and the four descriptive columns stay as they were; and
    a row whose id no statement names stays as it was. *)
Theorem handle_writes_only_output_columns (req : request) w :
  ∃ statements,
    db_writes (serve (handle llm req) w).2 = db_writes w ++ statements
    ∧ Forall swot_statement statements
    ∧ Forall2 same_inputs (db w) (db (serve (handle llm req) w).2)
    ∧ ∀ (i : nat) r,
        db w !! i = Some r →
        Forall (λ st : update_statement, st.2 ≠ Eq "id" (PyInt (Row.id r))) statements →
        db (serve (handle llm req) w).2 !! i = Some r.
Proof.
  rewrite serve_world. destruct (handle_effect req w) as (answers & -> & ->).
  exists (map statement_of answers). split; [done|]. split.
  { apply Forall_forall. intros st [a [<- _]]%list_elem_of_In%List.in_map_iff.
    apply statement_of_swot. }
  split; [apply write_all_same_inputs|].
  intros i r Hi Hother. apply write_all_other; [done|].
  apply Forall_forall. intros a Ha Hid.
  rewrite Forall_forall in Hother. apply (Hother (statement_of a)).
  - apply list_elem_of_In, List.in_map. by apply list_elem_of_In.
  - cbn. by rewrite Hid.
Qed.

(** C9: in a "success" answer of the batch endpoint the count is the
    length of the list, and the ids of the list follow the order of the rows
    of the query; when the query has rows and every model call fails, the
    answer is still 200 "success", with count 0 and an empty list. *)
Theorem update_all_summary w :
  let rows := List.filter (matches (IsNull "competitor_strength")) (db w) in
  let response := (serve (update_all_competitors llm) w).1 in
  (∀ total_processed updated_competitors,
     content response = Batch "success" total_processed updated_competitors →
     total_processed = length updated_competitors
     ∧ sublist (map CompetitorResponse.id updated_competitors) (map Row.id rows))
  ∧ (rows ≠ [] →
     (∀ (j : nat) r, rows !! j = Some r →
        ∃ message, llm (length (llm_calls w) + j) (row_request r) = inl message) →
     response = {| status_code := 200; content := Batch "success" 0 [] |}).
Proof.
  intros rows response. subst rows response. rewrite unanalysed_rows.
  destruct (update_all_eq llm w) as [lines Heq].
  unfold serve. rewrite Heq. cbn [fst content].
  destruct (List.filter needs_update (db w)) as [|r rows] eqn:Hrows.
  { split; [done|]. by intros []. }
  split.
  - intros n l [= <- <-]. split; [done|].
    etrans; [apply collected_ids_sublist|].
    rewrite <- (map_map fst Row.id).
    change (sublist (Row.id <$> (map fst (analysed llm (length (llm_calls w)) (r :: rows))))
                    (Row.id <$> (r :: rows))).
    apply fmap_sublist, analysed_sublist.
  - intros _ Hfail. by rewrite (analysed_all_fail llm (r :: rows) _ Hfail).
Qed.

(** C4: when the model call of exactly one of the N rows of the query
    fails, the batch endpoint answers 200 with count N-1; the ids of the
    list are the ids of the rows of the query with the failing one removed,
    and, ids being unique, the id of the failing row is not in the list. *)
Theorem update_all_one_failure w (k : nat) rk :
  let rows := List.filter (matches (IsNull "competitor_strength")) (db w) in
  rows !! k = Some rk →
  (∃ message, llm (length (llm_calls w) + k) (row_request rk) = inl message) →
  (∀ (j : nat) r, j ≠ k → rows !! j = Some r →
     ∃ swot, llm (length (llm_calls w) + j) (row_request r) = inr swot) →
  ∃ updated_competitors,
    (serve (update_all_competitors llm) w).1
    = {| status_code := 200;
         content := Batch "success" (length rows - 1) updated_competitors |}
    ∧ map CompetitorResponse.id updated_competitors = map Row.id (delete k rows)
    ∧ (NoDup (map Row.id (db w)) →
       Row.id rk ∉ map CompetitorResponse.id updated_competitors).
Proof.
  intros rows. subst rows. rewrite unanalysed_rows. intros Hk Hfail Hok.
  destruct (update_all_eq llm w) as [lines Heq].
  unfold serve. rewrite Heq. cbn [fst].
  remember (List.filter needs_update (db w)) as rows eqn:Hrows.
  assert (Hsub : sublist rows (db w)) by (rewrite Hrows; apply filter_sublist).
  clear Hrows Heq. destruct rows as [|r0 rows0]; [done|].
  remember (r0 :: rows0) as rows eqn:Hrows.
  remember (analysed llm (length (llm_calls w)) rows) as answers eqn:Hanswers.
  assert (Hids : map CompetitorResponse.id (collected answers (db w))
                 = map Row.id (delete k rows)).
  { rewrite collected_ids.
    - rewrite <- (analysed_one_fails llm rows _ k rk Hk Hfail Hok), <- Hanswers.
      by rewrite map_map.
    - apply List.Forall_forall. intros a Ha. apply List.in_map.
      rewrite Hanswers in Ha. apply analysed_in in Ha.
      apply list_elem_of_In. eapply elem_of_sublist; [|apply Hsub].
      by apply list_elem_of_In. }
  assert (Hlen : length (collected answers (db w)) = (length rows - 1)%nat).
  { rewrite <- (length_map CompetitorResponse.id), Hids, length_map.
    apply length_delete. by eexists. }
  exists (collected answers (db w)). rewrite Hlen.
  split; [done|]. split; [done|].
  intros Hnd. rewrite Hids.
  change (Row.id rk ∉ Row.id <$> delete k rows).
  rewrite list_fmap_delete. apply NoDup_delete_not_in.
  - eapply sublist_NoDup; [apply Hnd|].
    change (sublist (Row.id <$> rows) (Row.id <$> db w)).
    by apply fmap_sublist.
  - by rewrite list_lookup_fmap, Hk.
Qed.

(** C7: the batch endpoint queries the rows whose [competitor_strength] is
    NULL; it sends one model request per row of that result and no other, and
    its update statements are for rows of that result.  A row whose
    [competitor_strength] is set when the query runs is not in the result
    and, ids being unique, no statement names its id and it is left as it
    was. *)
Theorem update_all_targets_unanalysed_rows w :
  let rows := List.filter (matches (IsNull "competitor_strength")) (db w) in
  let w' := (serve (update_all_competitors llm) w).2 in
  (table_select selected_columns (IsNull "competitor_strength") w).1
  = inr (map (select_columns selected_columns) rows)
  ∧ Forall (λ r, In r (db w) ∧ Row.competitor_strength r = None) rows
  ∧ llm_calls w' = llm_calls w ++ map row_request rows
  ∧ ∃ answers,
      sublist (map fst answers) rows
      ∧ db_writes w' = db_writes w ++ map statement_of answers
      ∧ ∀ (i : nat) r,
          db w !! i = Some r →
          Row.competitor_strength r ≠ None →
          ¬ In r rows
          ∧ (NoDup (map Row.id (db w)) →
             Forall (λ st : update_statement, st.2 ≠ Eq "id" (PyInt (Row.id r)))
               (map statement_of answers)
             ∧ db w' !! i = Some r).
Proof.
  intros rows w'. subst rows w'. rewrite serve_world.
  split; [reflexivity|]. rewrite unanalysed_rows.
  assert (Hrows : ∀ r, In r (List.filter needs_update (db w)) →
                       In r (db w) ∧ Row.competitor_strength r = None).
  { intros r [Hin Hneeds]%List.filter_In. split; [done|].
    unfold needs_update in Hneeds. by apply bool_decide_eq_true_1 in Hneeds. }
  split; [by apply List.Forall_forall|].
  destruct (update_all_eq llm w) as [lines ->]. cbn [snd db llm_calls db_writes].
  split; [done|].
  exists (analysed llm (length (llm_calls w)) (List.filter needs_update (db w))).
  split; [apply analysed_sublist|]. split; [done|].
  intros i r Hi Hset.
  split; [intros Hin; by apply Hrows in Hin as [_ Hnull]|].
  intros Hnd.
  assert (Hother : Forall (λ a : Row.t * SWOTAnalysis, Row.id a.1 ≠ Row.id r)
            (analysed llm (length (llm_calls w)) (List.filter needs_update (db w)))).
  { apply Forall_forall. intros a Ha%list_elem_of_In%analysed_in Hid.
    apply Hrows in Ha as [Ha Hnull].
    apply list_elem_of_In, list_elem_of_lookup_1 in Ha as [j Hj].
    assert (i = j) as ->.
    { eapply (NoDup_lookup _ _ _ (Row.id r) Hnd).
      - change (map Row.id (db w)) with (Row.id <$> db w).
        by rewrite list_lookup_fmap, Hi.
      - change (map Row.id (db w)) with (Row.id <$> db w).
        by rewrite list_lookup_fmap, Hj, <- Hid. }
    congruence. }
  split.
  - apply Forall_forall. intros st [a [<- Ha]]%list_elem_of_In%List.in_map_iff.
    cbn. intros [= Hid]. rewrite Forall_forall in Hother.
    by apply (Hother a); [apply list_elem_of_In|].
  - by apply write_all_other.
Qed.

End Handlers.

(** ** The theorems at the sample data *)

Lemma update_competitor_swot_llm_failure_witness :
  llm_down 0 (swot_request "Acme" (select_columns selected_columns acme)) = inl "rate limit"
  ∧ (update_competitor_swot llm_down 7 "Acme" (select_columns selected_columns acme) world0).1
    = inl (OpenAIError "rate limit")
  ∧ last (logged (update_competitor_swot llm_down 7 "Acme"
                    (select_columns selected_columns acme) world0).2)
    = Some (ERROR, "Error processing Acme: rate limit")
  ∧ db_writes (update_competitor_swot llm_down 7 "Acme"
                 (select_columns selected_columns acme) world0).2 = [].
Proof.
  split; [reflexivity|].
  destruct (update_competitor_swot_llm_failure llm_down 7 "Acme"
              (select_columns selected_columns acme) world0 "rate limit" eq_refl)
    as (_ & Hraised & Hlogged & Hwrites & _).
  split; [exact Hraised|]. split; [exact Hlogged | exact Hwrites].
Defined.

Lemma update_competitor_swot_one_call_one_write_witness :
  ∃ updated w',
    update_competitor_swot llm_ok 7 "Acme" (select_columns selected_columns acme) world0
    = (inr updated, w')
    ∧ length (llm_calls w') = 1%nat
    ∧ length (db_writes w') = 1%nat.
Proof.
  exists (response_of_row (with_swot swot0 acme)),
    (update_competitor_swot llm_ok 7 "Acme" (select_columns selected_columns acme) world0).2.
  assert (Hrun : update_competitor_swot llm_ok 7 "Acme"
                   (select_columns selected_columns acme) world0
                 = (inr (response_of_row (with_swot swot0 acme)),
                    (update_competitor_swot llm_ok 7 "Acme"
                       (select_columns selected_columns acme) world0).2))
    by (vm_compute; reflexivity).
  split; [exact Hrun|].
  destruct (update_competitor_swot_one_call_one_write llm_ok 7 "Acme"
              (select_columns selected_columns acme) world0 _ _ Hrun)
    as (swot & _ & _ & Hcalls & Hwrites).
  split; [exact Hcalls | exact Hwrites].
Defined.

Lemma update_competitor_swot_only_updated_rows_witness :
  (update_competitor_swot llm_ok 1 "Nobody" ∅ world0).1 = inl IndexError
  ∧ db (update_competitor_swot llm_ok 1 "Nobody" ∅ world0).2 = db world0
  ∧ ∃ r, In r (db world0) ∧ Row.id r = 7
         ∧ (update_competitor_swot llm_ok 7 "Acme"
              (select_columns selected_columns acme) world0).1
           = inr (response_of_row (with_swot swot0 r)).
Proof.
  destruct (update_competitor_swot_only_updated_rows llm_ok 1 "Nobody" ∅ world0)
    as [Hnone _].
  destruct (Hnone swot0 eq_refl eq_refl) as [Hraised Htable].
  split; [exact Hraised|]. split; [exact Htable|].
  destruct (update_competitor_swot_only_updated_rows llm_ok 7 "Acme"
              (select_columns selected_columns acme) world0) as [_ Hsome].
  destruct (Hsome (response_of_row (with_swot swot0 acme)) eq_refl)
    as (swot & r & data & Hanswer & Hin & Hid & _ & _ & Hupdated).
  exists r. split; [exact Hin|]. split; [exact Hid|].
  injection Hanswer as <-. vm_compute. vm_compute in Hupdated. by rewrite Hupdated.
Defined.

Lemma update_all_nothing_to_do_witness :
  (table_select selected_columns (IsNull "competitor_strength") analysed_world).1 = inr []
  ∧ (serve (update_all_competitors llm_ok) analysed_world).1
    = {| status_code := 200; content := Status "No competitors found needing updates" |}
  ∧ llm_calls (serve (update_all_competitors llm_ok) analysed_world).2 = []
  ∧ db_writes (serve (update_all_competitors llm_ok) analysed_world).2 = []
  ∧ db (serve (update_all_competitors llm_ok) analysed_world).2 = [beta].
Proof.
  split; [reflexivity|].
  exact (update_all_nothing_to_do llm_ok analysed_world eq_refl).
Defined.

Lemma update_all_summary_witness :
  (serve (update_all_competitors llm_down) world0).1
  = {| status_code := 200; content := Batch "success" 0 [] |}
  ∧ ∀ total_processed updated_competitors,
      content (serve (update_all_competitors llm_second_fails) world0).1
      = Batch "success" total_processed updated_competitors →
      total_processed = length updated_competitors
      ∧ sublist (map CompetitorResponse.id updated_competitors) [7; 9].
Proof.
  split.
  - destruct (update_all_summary llm_down world0) as [_ Hfail].
    apply Hfail.
    + discriminate.
    + intros j r _. exists "rate limit". reflexivity.
  - destruct (update_all_summary llm_second_fails world0) as [Hsummary _].
    exact Hsummary.
Defined.

Lemma update_all_one_failure_witness :
  ∃ updated_competitors,
    (serve (update_all_competitors llm_second_fails) world0).1
    = {| status_code := 200; content := Batch "success" 1 updated_competitors |}
    ∧ map CompetitorResponse.id updated_competitors = [7]
    ∧ 9 ∉ map CompetitorResponse.id updated_competitors.
Proof.
  assert (Hfail : ∃ message, llm_second_fails (length (llm_calls world0) + 1)
                               (row_request gamma) = inl message)
    by (exists "rate limit"; reflexivity).
  assert (Hok : ∀ (j : nat) r, j ≠ 1%nat →
            List.filter (matches (IsNull "competitor_strength")) (db world0) !! j = Some r →
            ∃ swot, llm_second_fails (length (llm_calls world0) + j) (row_request r)
                    = inr swot).
  { intros [|[|j]] r Hj _; [|lia|]; exists swot0; reflexivity. }
  destruct (update_all_one_failure llm_second_fails world0 1 gamma eq_refl Hfail Hok)
    as (updated_competitors & Hresponse & Hids & Habsent).
  exists updated_competitors. split; [exact Hresponse|]. split; [exact Hids|].
  apply Habsent. apply (bool_decide_unpack _). vm_compute. exact I.
Defined.

Lemma update_all_targets_unanalysed_rows_witness :
  llm_calls (serve (update_all_competitors llm_ok) world0).2
  = [row_request acme; row_request gamma]
  ∧ ¬ In beta (List.filter (matches (IsNull "competitor_strength")) (db world0))
  ∧ db (serve (update_all_competitors llm_ok) world0).2 !! 1%nat = Some beta.
Proof.
  destruct (update_all_targets_unanalysed_rows llm_ok world0)
    as (_ & _ & Hcalls & answers & _ & _ & Hkept).
  split; [exact Hcalls|].
  destruct (Hkept 1%nat beta eq_refl) as (Hskipped & Hbeta); [discriminate|].
  split; [exact Hskipped|].
  apply Hbeta. apply (bool_decide_unpack _). vm_compute. exact I.
Defined.

Lemma handle_writes_only_output_columns_witness :
  ∃ statements,
    db_writes (serve (handle llm_ok (PostUpdateSingle 7)) world0).2 = statements
    ∧ Forall swot_statement statements
    ∧ db (serve (handle llm_ok (PostUpdateSingle 7)) world0).2 !! 2%nat = Some gamma.
Proof.
  destruct (handle_writes_only_output_columns llm_ok (PostUpdateSingle 7) world0)
    as (statements & Hwrites & Hshape & _ & Hother).
  exists statements. split; [exact Hwrites|]. split; [exact Hshape|].
  apply (Hother 2%nat gamma eq_refl).
  vm_compute in Hwrites. rewrite <- Hwrites.
  repeat constructor. discriminate.
Defined.

(** ** Startup *)

(** At startup the variable check logs, after two INFO lines, an ERROR line
    exactly when one of the three required variables is unset or empty, and
    the INFO line otherwise; it never raises and touches nothing but the
    log. *)
Theorem lifespan_startup_reports_missing_variables (environ : gmap string string) w :
  let result := lifespan_startup environ w in
  result.1 = inr tt
  ∧ db result.2 = db w
  ∧ llm_calls result.2 = llm_calls w
  ∧ db_writes result.2 = db_writes w
  ∧ ((∃ name, name ∈ required_variables
              ∧ (environ !! name = None ∨ environ !! name = Some EmptyString))
     → logged result.2
       = logged w ++ [(INFO, "Starting up application...");
                      (INFO, "Checking environment variables...");
                      (ERROR, "Missing required environment variables!")])
  ∧ ((∀ name, name ∈ required_variables →
              ∃ c value, environ !! name = Some (String c value))
     → logged result.2
       = logged w ++ [(INFO, "Starting up application...");
                      (INFO, "Checking environment variables...");
                      (INFO, "All required environment variables are set")]).
Proof.
  intros result. subst result.
  unfold lifespan_startup, bind, logger_info, logger_error, py_all, os_getenv.
  cbn [db logged llm_calls db_writes forallb].
  split; [by destruct (negb _)|].
  split; [by destruct (negb _)|].
  split; [by destruct (negb _)|].
  split; [by destruct (negb _)|].
  split.
  - intros (name & Hname & Hmissing).
    assert (Hall : truthy (environ !! "OPENAI_API_KEY") && (truthy (environ !! "SUPABASE_URL")
                   && (truthy (environ !! "SUPABASE_KEY") && true)) = false).
    { unfold required_variables in Hname.
      repeat (apply elem_of_cons in Hname as [->|Hname]);
        [| | |by apply elem_of_nil in Hname];
        destruct Hmissing as [-> | ->]; cbn [truthy andb];
        rewrite ?andb_false_r; reflexivity. }
    rewrite Hall. cbn [negb snd logged]. by rewrite <- !app_assoc.
  - intros Hset.
    destruct (Hset "OPENAI_API_KEY") as (? & ? & ->); [unfold required_variables; set_solver|].
    destruct (Hset "SUPABASE_URL") as (? & ? & ->); [unfold required_variables; set_solver|].
    destruct (Hset "SUPABASE_KEY") as (? & ? & ->); [unfold required_variables; set_solver|].
    cbn [truthy andb negb snd logged]. by rewrite <- !app_assoc.
Qed.

(** ** The single-competitor endpoint on a row of the table *)

Lemma rows_by_id competitor_id table :
  List.filter (matches (Eq "id" (PyInt competitor_id))) table
  = List.filter (has_id competitor_id) table.
Proof. apply List.filter_ext. intros r. apply matches_eq_id. Qed.

Lemma head_cons {A} (l : list A) x : head l = Some x → ∃ rest, l = x :: rest.
Proof. destruct l as [|y l]; [done|]. intros [= ->]. by exists l. Qed.

Section Single.

Variable llm : nat → completion_request → string + SWOTAnalysis.

(** When a row has the id and the model answers, the endpoint answers 200
    with a record that carries the requested id, the name stored in the
    first such row and the four parts of the answer; afterwards every row
    with the id holds the answer in its four output columns. *)
Theorem update_single_success competitor_id w r swot :
  head (List.filter (matches (Eq "id" (PyInt competitor_id))) (db w)) = Some r →
  llm (length (llm_calls w)) (row_request r) = inr swot →
  let result := serve (update_single_competitor llm competitor_id) w in
  result.1
  = {| status_code := 200;
       content := Competitor
         (CompetitorResponse.make competitor_id (Row.competitor_name r)
            (Some (strengths swot)) (Some (weaknesses swot))
            (Some (opportunities swot)) (Some (threats swot))) |}
  ∧ Forall (λ r', Row.id r' = competitor_id →
                  Row.competitor_strength r' = Some (strengths swot)
                  ∧ Row.competitor_weakness r' = Some (weaknesses swot)
                  ∧ Row.competitor_opportunity r' = Some (opportunities swot)
                  ∧ Row.competitor_threats r' = Some (threats swot))
      (db result.2)
  ∧ llm_calls result.2 = llm_calls w ++ [row_request r]
  ∧ db_writes result.2
    = db_writes w ++ [(swot_payload swot, Eq "id" (PyInt competitor_id))].
Proof.
  rewrite rows_by_id. intros [rest Hrows]%head_cons Hanswer result. subst result.
  unfold serve. rewrite (update_single_present llm competitor_id w r rest Hrows).
  rewrite update_competitor_swot_eq. cbn [db logged llm_calls db_writes].
  fold (row_request r). rewrite Hanswer, Hrows.
  destruct (filter_has_id_head _ _ _ _ Hrows) as [Hid _].
  cbn [fst snd db llm_calls db_writes]. split.
  { unfold response_of_row, with_swot. cbn. by rewrite Hid. }
  split; [|done].
  unfold write_swot. apply Forall_forall. intros r' Hr' Hid'.
  apply list_elem_of_In, List.in_map_iff in Hr' as (r0 & <- & _).
  destruct (has_id competitor_id r0) eqn:Hmatch; [done|].
  unfold has_id in Hmatch. by apply bool_decide_eq_false_1 in Hmatch.
Qed.

(** When a row has the id and the model call fails, the endpoint answers
    500 with the message of the failure as detail; the request was sent, no
    update statement was, and the table is as it was. *)
Theorem update_single_model_failure competitor_id w r message :
  head (List.filter (matches (Eq "id" (PyInt competitor_id))) (db w)) = Some r →
  llm (length (llm_calls w)) (row_request r) = inl message →
  let result := serve (update_single_competitor llm competitor_id) w in
  result.1 = {| status_code := 500; content := Detail message |}
  ∧ db result.2 = db w
  ∧ db_writes result.2 = db_writes w
  ∧ llm_calls result.2 = llm_calls w ++ [row_request r].
Proof.
  rewrite rows_by_id. intros [rest Hrows]%head_cons Hfail result. subst result.
  unfold serve. rewrite (update_single_present llm competitor_id w r rest Hrows).
  rewrite update_competitor_swot_eq. cbn [db logged llm_calls db_writes].
  fold (row_request r). rewrite Hfail. done.
Qed.

End Single.

(** ** Invariants of the table *)

Lemma patch_cases answers : ∀ r,
  patch answers r = r ∨ ∃ swot, patch answers r = with_swot swot r.
Proof.
  induction answers as [|a answers IH]; intros r; cbn [patch]; [by left|].
  destruct (has_id (Row.id a.1) r); [|apply IH].
  destruct (IH (with_swot a.2 r)) as [-> | [swot ->]]; right; by eexists.
Qed.

Lemma patch_analysed answers : ∀ r,
  needs_update r = false ∨ (∃ a, In a answers ∧ Row.id a.1 = Row.id r) →
  needs_update (patch answers r) = false.
Proof.
  induction answers as [|a answers IH]; intros r Hr; cbn [patch].
  { destruct Hr as [Hr | (a & [] & _)]. done. }
  apply IH. unfold has_id.
  destruct (bool_decide (Row.id r = Row.id a.1)) eqn:Hid; [by left|].
  apply bool_decide_eq_false_1 in Hid.
  destruct Hr as [Hr | (b & [<- | Hb] & Hb')]; [by left | congruence |].
  right. by exists b.
Qed.

Lemma filter_nil_intro {A} (p : A → bool) (l : list A) :
  (∀ x, In x l → p x = false) → List.filter p l = [].
Proof.
  induction l as [|x l IH]; intros Hfalse; cbn [List.filter]; [done|].
  rewrite (Hfalse x) by (by left). apply IH. intros y Hy. apply Hfalse. by right.
Qed.

Section Batch.

Variable llm : nat → completion_request → string + SWOTAnalysis.

(** Whatever the request, if the four output columns of every row are all
    NULL or all set before it, they are so after it. *)
Theorem handle_keeps_outputs_consistent (req : request) w :
  Forall outputs_consistent (db w) →
  Forall outputs_consistent (db (serve (handle llm req) w).2).
Proof.
  intros Hbefore. rewrite serve_world.
  destruct (handle_effect llm req w) as (answers & -> & _).
  rewrite write_all_patch. apply Forall_forall.
  intros r' (r & <- & Hr)%list_elem_of_In%List.in_map_iff.
  destruct (patch_cases answers r) as [-> | [swot ->]].
  - rewrite Forall_forall in Hbefore. by apply Hbefore, list_elem_of_In.
  - right. by repeat split.
Qed.

(** Whatever the request, a row whose [competitor_strength] is set keeps it
    set: no request turns an analysed row into one the batch query selects. *)
Theorem handle_never_clears_analysis (req : request) w (i : nat) r r' :
  db w !! i = Some r →
  db (serve (handle llm req) w).2 !! i = Some r' →
  is_Some (Row.competitor_strength r) →
  is_Some (Row.competitor_strength r').
Proof.
  rewrite serve_world.
  destruct (handle_effect llm req w) as (answers & -> & _).
  rewrite write_all_patch.
  change (map (patch answers) (db w)) with (patch answers <$> db w).
  rewrite list_lookup_fmap. intros -> [= <-] Hset.
  destruct (patch_cases answers r) as [-> | [swot ->]]; [done | by eexists].
Qed.

(** After a batch in which the model answers every request, the query for
    rows without analysis returns nothing: a second batch, whatever the model
    does, answers "No competitors found needing updates" and sends nothing
    to the model or to the store. *)
Theorem update_all_twice llm' w :
  (∀ (j : nat) r,
     List.filter (matches (IsNull "competitor_strength")) (db w) !! j = Some r →
     ∃ swot, llm (length (llm_calls w) + j) (row_request r) = inr swot) →
  let w1 := (serve (update_all_competitors llm) w).2 in
  let second := serve (update_all_competitors llm') w1 in
  List.filter (matches (IsNull "competitor_strength")) (db w1) = []
  ∧ second.1
    = {| status_code := 200; content := Status "No competitors found needing updates" |}
  ∧ db second.2 = db w1
  ∧ llm_calls second.2 = llm_calls w1
  ∧ db_writes second.2 = db_writes w1.
Proof.
  rewrite !unanalysed_rows. intros Hok w1 second.
  assert (Hnone : List.filter needs_update (db w1) = []).
  { subst w1. rewrite serve_world.
    destruct (update_all_eq llm w) as [lines ->]. cbn [snd db].
    rewrite write_all_patch. apply filter_nil_intro.
    intros r' (r & <- & Hr)%List.in_map_iff.
    apply patch_analysed.
    destruct (needs_update r) eqn:Hneeds; [right | by left].
    assert (Hin : In r (map fst (analysed llm (length (llm_calls w))
                                   (List.filter needs_update (db w))))).
    { rewrite (analysed_all_succeed llm _ _ Hok). by apply List.filter_In. }
    apply List.in_map_iff in Hin as (a & <- & Ha). by exists a. }
  split; [by rewrite unanalysed_rows|].
  subst second. destruct (update_all_eq llm' w1) as [lines Heq].
  unfold serve. rewrite Heq, Hnone. cbn. by rewrite !app_nil_r.
Qed.

(** When every model call of a batch fails, the batch sends no update
    statement and leaves the table as it was, after one request per row of
    the query. *)
Theorem update_all_all_fail_changes_nothing w :
  let rows := List.filter (matches (IsNull "competitor_strength")) (db w) in
  (∀ (j : nat) r, rows !! j = Some r →
     ∃ message, llm (length (llm_calls w) + j) (row_request r) = inl message) →
  let w' := (serve (update_all_competitors llm) w).2 in
  db w' = db w
  ∧ db_writes w' = db_writes w
  ∧ llm_calls w' = llm_calls w ++ map row_request rows.
Proof.
  intros rows. subst rows. rewrite unanalysed_rows. intros Hfail w'. subst w'.
  rewrite serve_world. destruct (update_all_eq llm w) as [lines ->].
  cbn [snd db llm_calls db_writes].
  rewrite (analysed_all_fail llm _ _ Hfail). cbn. by rewrite app_nil_r.
Qed.

(** In a "success" answer of the batch endpoint the count is the number of
    update statements the batch sent, at most the number of rows of the
    query; the batch sent one model request per row of the query. *)
Theorem update_all_counts w total_processed updated_competitors :
  content (serve (update_all_competitors llm) w).1
  = Batch "success" total_processed updated_competitors →
  let rows := List.filter (matches (IsNull "competitor_strength")) (db w) in
  let w' := (serve (update_all_competitors llm) w).2 in
  (∃ statements,
     db_writes w' = db_writes w ++ statements
     ∧ total_processed = length statements)
  ∧ (total_processed ≤ length rows)%nat
  ∧ length (llm_calls w') = (length (llm_calls w) + length rows)%nat.
Proof.
  intros Hbody rows w'. subst rows w'. rewrite unanalysed_rows.
  revert Hbody. rewrite serve_world.
  destruct (update_all_eq llm w) as [lines Heq].
  unfold serve. rewrite Heq. cbn [fst snd content db llm_calls db_writes].
  remember (List.filter needs_update (db w)) as rows eqn:Hrows.
  assert (Hsub : sublist rows (db w)) by (rewrite Hrows; apply filter_sublist).
  clear Hrows Heq. destruct rows as [|r0 rows0]; [done|].
  remember (r0 :: rows0) as rows eqn:Hrows. clear Hrows.
  remember (analysed llm (length (llm_calls w)) rows) as answers eqn:Hanswers.
  intros [= <- <-].
  assert (Hlen : length (collected answers (db w)) = length answers).
  { rewrite <- (length_map CompetitorResponse.id), collected_ids, length_map; [done|].
    apply List.Forall_forall. intros a Ha. apply List.in_map.
    rewrite Hanswers in Ha. apply analysed_in in Ha.
    apply list_elem_of_In. eapply elem_of_sublist; [|apply Hsub].
    by apply list_elem_of_In. }
  split; [|split].
  - exists (map statement_of answers). split; [done|]. by rewrite length_map.
  - rewrite Hlen, <- (length_map fst), Hanswers.
    apply sublist_length, analysed_sublist.
  - by rewrite length_app, length_map.
Qed.


End Batch.

(** The request of a row does not depend on its output columns: rows that
    agree on the id, the name and the four descriptive columns get the same
    request. *)
Theorem row_request_ignores_outputs r r' :
  same_inputs r r' → row_request r = row_request r'.
Proof.
  destruct r, r'. unfold same_inputs. cbn.
  intros (-> & -> & -> & -> & -> & ->). reflexivity.
Qed.

(** ** The loop of the batch on dicts with a missing key *)

Section MissingKeys.

Variable llm : nat → completion_request → string + SWOTAnalysis.

(** A dict without the key [id] is skipped: the [KeyError] is logged under
    the name of the competitor, nothing is sent to the model or to the store
    for it, and the loop goes on with the next dict and the same list. *)
Theorem update_each_skips_missing_id competitor rest updated_competitors w competitor_name :
  competitor !! "id" = None →
  competitor !! "competitor_name" = Some (PyStr competitor_name) →
  update_each llm (competitor :: rest) updated_competitors w
  = update_each llm rest updated_competitors
      {| db := db w;
         logged := logged w ++ [(ERROR, "Error processing " +:+ competitor_name +:+ ": 'id'")];
         llm_calls := llm_calls w;
         db_writes := db_writes w |}.
Proof.
  intros Hid Hname. cbn [update_each].
  unfold bind at 1. unfold try_except.
  unfold bind at 1. unfold subscript_int. rewrite Hid. unfold raise at 1.
  unfold bind at 1. unfold subscript_str. rewrite Hname. unfold ret at 1.
  unfold bind at 1. unfold logger_error, ret. reflexivity.
Qed.

(** A dict without the key [competitor_name] stops the loop: the handler of
    the loop reads the name for its log line, so the [KeyError] leaves the
    loop; nothing is logged or sent for this dict and the dicts after it are
    not processed. *)
Theorem update_each_stops_on_missing_name competitor rest updated_competitors w :
  competitor !! "competitor_name" = None →
  update_each llm (competitor :: rest) updated_competitors w
  = (inl (KeyError "competitor_name"), w).
Proof.
  intros Hname. cbn [update_each].
  unfold bind at 1. unfold try_except.
  unfold bind at 1. unfold subscript_int, subscript_str. rewrite Hname.
  destruct (competitor !! "id") as [[| |n]|]; reflexivity.
Qed.

End MissingKeys.

(** ** The prompt, further *)

(** The prompt reads the name and the four descriptive keys only: dicts
    that agree on these four keys give the same prompt. *)
Theorem swot_prompt_reads_descriptive_columns competitor_name
    (existing_data existing_data' : gmap string pyval) :
  (∀ key, key ∈ descriptive_columns → existing_data !! key = existing_data' !! key) →
  swot_prompt competitor_name existing_data = swot_prompt competitor_name existing_data'.
Proof.
  intros Hsame. unfold swot_prompt, dict_get.
  rewrite (Hsame "program_summary"), (Hsame "competitor_positioning"),
    (Hsame "competitor_rewards_benefits"), (Hsame "competitor_user_feedback");
    [done | unfold descriptive_columns; set_solver ..].
Qed.

(** A descriptive field bound to a text is printed after its label. *)
Theorem swot_prompt_text_value competitor_name (existing_data : gmap string pyval) text :
  (existing_data !! "program_summary" = Some (PyStr text) →
   contains (swot_prompt competitor_name existing_data) ("Program Summary: " +:+ text))
  ∧ (existing_data !! "competitor_positioning" = Some (PyStr text) →
     contains (swot_prompt competitor_name existing_data) ("Market Positioning: " +:+ text))
  ∧ (existing_data !! "competitor_rewards_benefits" = Some (PyStr text) →
     contains (swot_prompt competitor_name existing_data) ("Rewards and Benefits: " +:+ text))
  ∧ (existing_data !! "competitor_user_feedback" = Some (PyStr text) →
     contains (swot_prompt competitor_name existing_data) ("User Feedback: " +:+ text)).
Proof.
  unfold swot_prompt, dict_get.
  repeat split; intros ->; cbn [py_format];
    do 5 apply contains_later.
  - eexists "   ", _. rewrite append_assoc. cbv [String.append]; reflexivity.
  - do 3 apply contains_later.
    eexists "   ", _. rewrite append_assoc. cbv [String.append]; reflexivity.
  - do 6 apply contains_later.
    eexists "   ", _. rewrite append_assoc. cbv [String.append]; reflexivity.
  - do 9 apply contains_later.
    eexists "   ", _. rewrite append_assoc. cbv [String.append]; reflexivity.
Qed.

(** ** The further theorems at the sample data *)

Lemma lifespan_startup_reports_missing_variables_witness :
  environ_empty_key !! "SUPABASE_KEY" = Some EmptyString
  ∧ (lifespan_startup environ_empty_key world0).1 = inr tt
  ∧ logged (lifespan_startup environ_empty_key world0).2
    = [(INFO, "Starting up application...");
       (INFO, "Checking environment variables...");
       (ERROR, "Missing required environment variables!")].
Proof.
  split; [reflexivity|].
  destruct (lifespan_startup_reports_missing_variables environ_empty_key world0)
    as (Hruns & _ & _ & _ & Hmissing & _).
  split; [exact Hruns|].
  apply Hmissing. exists "SUPABASE_KEY". split; [|right; reflexivity].
  unfold required_variables. do 2 apply list_elem_of_further. apply list_elem_of_here.
Defined.

Lemma update_single_success_witness :
  (serve (update_single_competitor llm_ok 7) world0).1
  = {| status_code := 200;
       content := Competitor
         (CompetitorResponse.make 7 "Acme" (Some "S") (Some "W") (Some "O") (Some "T")) |}.
Proof.
  destruct (update_single_success llm_ok 7 world0 acme swot0 eq_refl eq_refl)
    as (Hresponse & _).
  exact Hresponse.
Defined.

Lemma update_single_model_failure_witness :
  (serve (update_single_competitor llm_down 7) world0).1
  = {| status_code := 500; content := Detail "rate limit" |}
  ∧ db (serve (update_single_competitor llm_down 7) world0).2 = [acme; beta; gamma]
  ∧ db_writes (serve (update_single_competitor llm_down 7) world0).2 = [].
Proof.
  destruct (update_single_model_failure llm_down 7 world0 acme "rate limit" eq_refl eq_refl)
    as (Hresponse & Htable & Hwrites & _).
  split; [exact Hresponse|]. split; [exact Htable | exact Hwrites].
Defined.

Lemma handle_keeps_outputs_consistent_witness :
  Forall outputs_consistent (db fresh_world)
  ∧ Forall outputs_consistent (db (serve (handle llm_second_fails PostUpdateAll) fresh_world).2).
Proof.
  assert (Hbefore : Forall outputs_consistent (db fresh_world)).
  { repeat constructor; left; repeat split; reflexivity. }
  split; [exact Hbefore|].
  exact (handle_keeps_outputs_consistent llm_second_fails PostUpdateAll fresh_world Hbefore).
Defined.

Lemma handle_never_clears_analysis_witness :
  is_Some (Row.competitor_strength beta)
  ∧ ∀ r', db (serve (handle llm_ok PostUpdateAll) world0).2 !! 1%nat = Some r' →
          is_Some (Row.competitor_strength r').
Proof.
  assert (Hset : is_Some (Row.competitor_strength beta)) by (exists "old"; reflexivity).
  split; [exact Hset|].
  intros r' Hafter.
  exact (handle_never_clears_analysis llm_ok PostUpdateAll world0 1 beta r' eq_refl Hafter Hset).
Defined.

Lemma update_all_twice_witness :
  (serve (update_all_competitors llm_down)
     (serve (update_all_competitors llm_ok) world0).2).1
  = {| status_code := 200; content := Status "No competitors found needing updates" |}.
Proof.
  assert (Hok : ∀ (j : nat) r,
            List.filter (matches (IsNull "competitor_strength")) (db world0) !! j = Some r →
            ∃ swot, llm_ok (length (llm_calls world0) + j) (row_request r) = inr swot).
  { intros j r _. exists swot0. reflexivity. }
  destruct (update_all_twice llm_ok llm_down world0 Hok) as (_ & Hsecond & _).
  exact Hsecond.
Defined.

Lemma update_all_all_fail_changes_nothing_witness :
  db (serve (update_all_competitors llm_down) world0).2 = [acme; beta; gamma]
  ∧ db_writes (serve (update_all_competitors llm_down) world0).2 = []
  ∧ length (llm_calls (serve (update_all_competitors llm_down) world0).2) = 2%nat.
Proof.
  assert (Hfail : ∀ (j : nat) r,
            List.filter (matches (IsNull "competitor_strength")) (db world0) !! j = Some r →
            ∃ message, llm_down (length (llm_calls world0) + j) (row_request r)
                       = inl message).
  { intros j r _. exists "rate limit". reflexivity. }
  destruct (update_all_all_fail_changes_nothing llm_down world0 Hfail)
    as (Htable & Hwrites & Hcalls).
  split; [exact Htable|]. split; [exact Hwrites|].
  rewrite Hcalls. reflexivity.
Defined.

Lemma update_all_counts_witness :
  ∃ updated_competitors,
    content (serve (update_all_competitors llm_second_fails) world0).1
    = Batch "success" 1 updated_competitors
    ∧ length (db_writes (serve (update_all_competitors llm_second_fails) world0).2) = 1%nat
    ∧ length (llm_calls (serve (update_all_competitors llm_second_fails) world0).2) = 2%nat.
Proof.
  exists [response_of_row (with_swot swot0 acme)].
  assert (Hbody : content (serve (update_all_competitors llm_second_fails) world0).1
                  = Batch "success" 1 [response_of_row (with_swot swot0 acme)])
    by (vm_compute; reflexivity).
  split; [exact Hbody|].
  destruct (update_all_counts llm_second_fails world0 _ _ Hbody)
    as ((statements & Hwrites & Hcount) & _ & Hcalls).
  split; [|exact Hcalls].
  rewrite Hwrites. cbn [db_writes world0 app]. symmetry. exact Hcount.
Defined.

Lemma row_request_ignores_outputs_witness :
  same_inputs acme (with_swot swot0 acme)
  ∧ row_request acme = row_request (with_swot swot0 acme).
Proof.
  assert (Hsame : same_inputs acme (with_swot swot0 acme)) by (repeat split; reflexivity).
  split; [exact Hsame|].
  exact (row_request_ignores_outputs acme (with_swot swot0 acme) Hsame).
Defined.

Lemma update_each_skips_missing_id_witness :
  no_id !! "id" = None
  ∧ update_each llm_ok [no_id] [] world0
    = (inr [],
       {| db := [acme; beta; gamma];
          logged := [(ERROR, "Error processing Delta: 'id'")];
          llm_calls := [];
          db_writes := [] |}).
Proof.
  split; [reflexivity|].
  exact (update_each_skips_missing_id llm_ok no_id [] [] world0 "Delta" eq_refl eq_refl).
Defined.

Lemma update_each_stops_on_missing_name_witness :
  no_name !! "competitor_name" = None
  ∧ update_each llm_ok [no_name; select_columns selected_columns acme] [] world0
    = (inl (KeyError "competitor_name"), world0).
Proof.
  split; [reflexivity|].
  exact (update_each_stops_on_missing_name llm_ok no_name
           [select_columns selected_columns acme] [] world0 eq_refl).
Defined.

Lemma swot_prompt_reads_descriptive_columns_witness :
  swot_prompt "Acme" (select_columns selected_columns acme)
  = swot_prompt "Acme" (Row.to_dict (with_swot swot0 acme)).
Proof.
  apply swot_prompt_reads_descriptive_columns.
  intros key Hkey. unfold descriptive_columns in Hkey.
  repeat (apply elem_of_cons in Hkey as [->|Hkey]); try reflexivity.
  by apply elem_of_nil in Hkey.
Defined.

Lemma swot_prompt_text_value_witness :
  only_summary !! "program_summary" = Some (PyStr "Earn points on every stay")
  ∧ contains (swot_prompt "Acme" only_summary) "Program Summary: Earn points on every stay".
Proof.
  split; [reflexivity|].
  destruct (swot_prompt_text_value "Acme" only_summary "Earn points on every stay")
    as (Hsummary & _).
  exact (Hsummary eq_refl).
Defined.

Lemma swot_prompt_missing_key_witness :
  only_summary !! "competitor_user_feedback" = None
  ∧ contains (swot_prompt "Acme" only_summary) "User Feedback: N/A".
Proof.
  split; [reflexivity|].
  destruct (swot_prompt_missing_key "Acme" only_summary) as (_ & _ & _ & Hfeedback).
  exact (Hfeedback eq_refl).
Defined.
